(** * FitTrack API: a shallow embedding of [main.py] and [schemas.py]

    The development follows the layout of the repository.

    - [Py]: the fragment of Python the handlers rely on: exceptions, the
      [int]/[float] arithmetic of [compute_workout_metrics] (binary64 with
      CPython's conversions and [round]), truthiness.
    - [Schemas]: the pydantic models of [schemas.py] with their [Field]
      constraints.
    - [Mongo]: the pymongo operations that [main.py] calls directly
      ([find_one], [find/sort/limit], [find_one_and_update], [ObjectId]).
    - [Database]: the storage adapter [database.py] ([db],
      [create_document], [get_documents]).
    - [Main]: the request handlers of [main.py].

    Definitions come first, the theorems about them afterwards. *)

From Stdlib Require Import ZArith NArith List String Ascii Bool Lia.
From Stdlib Require Import Sorting.Sorted Sorting.Permutation.
From Stdlib Require Import Floats.SpecFloat.
Import ListNotations.
Local Open Scope string_scope.
Local Open Scope list_scope.
Local Open Scope Z_scope.

(* ================================================================== *)
(** * Python values *)
(* ================================================================== *)

Module Py.

(** Exceptions that can leave a handler.  [HTTPException] is the only one
    the handlers raise themselves; the others come from the interpreter,
    the framework or the storage driver. *)
Inductive exn : Type :=
| HTTPException (status_code : Z) (detail : string)
| RequestValidationError
| OverflowError
| TypeError
| InvalidId
| OperationFailure
| DatabaseNotAvailable.

Inductive result (A : Type) : Type :=
| Ok (a : A)
| Raise (e : exn).
Arguments Ok {A} a.
Arguments Raise {A} e.

Definition bind {A B} (c : result A) (k : A -> result B) : result B :=
  match c with
  | Ok a => k a
  | Raise e => Raise e
  end.

(** The status line the framework answers with. *)
Definition status_code_of {A} (r : result A) : Z :=
  match r with
  | Ok _ => 200
  | Raise (HTTPException c _) => c
  | Raise RequestValidationError => 422
  | Raise _ => 500
  end.

(** [for x in l: st = body st x], stopping at the first exception. *)
Fixpoint for_each {A S} (body : S -> A -> result S) (l : list A) (st : S)
  : result S :=
  match l with
  | [] => Ok st
  | x :: l' => bind (body st x) (for_each body l')
  end.

(** ** [float]: IEEE 754 binary64 *)

Definition float : Type := spec_float.
Definition prec : Z := 53.
Definition emax : Z := 1024.

Definition float_add : float -> float -> float := SFadd prec emax.
Definition float_mul : float -> float -> float := SFmul prec emax.
Definition float_div : float -> float -> float := SFdiv prec emax.
Definition float_le : float -> float -> bool := SFleb.
Definition float_eq : float -> float -> bool := SFeqb.

(** The nearest double of an integer (ties to even), infinite when the
    integer is out of range. *)
Definition nearest_float (z : Z) : float := binary_normalize prec emax z 0 false.

Definition float_0 : float := S754_zero false.
Definition float_1 : float := nearest_float 1.
Definition float_10 : float := nearest_float 10.

(** [float(z)] as used implicitly by mixed arithmetic: CPython raises
    [OverflowError] ("int too large to convert to float") where the
    rounded value would not be finite. *)
Definition float_of_int (z : Z) : result float :=
  match nearest_float z with
  | S754_infinity _ => Raise OverflowError
  | f => Ok f
  end.

(** [bool(f)]: a float is falsy exactly when it compares equal to zero
    (both signed zeros; a NaN is truthy). *)
Definition float_bool (f : float) : bool := negb (float_eq f float_0).

(** A value that is an [int] or a [float] at run time. *)
Inductive number : Type :=
| Int (z : Z)
| Float (f : float).

(** [f or 0] *)
Definition or_0 (f : float) : number :=
  if float_bool f then Float f else Int 0.

(** [n * x] for an [int] n *)
Definition int_mul (n : Z) (x : number) : result number :=
  match x with
  | Int k => Ok (Int (n * k))
  | Float f => bind (float_of_int n) (fun n' => Ok (Float (float_mul n' f)))
  end.

(** [acc += x] for a [float] acc *)
Definition float_iadd (acc : float) (x : number) : result float :=
  match x with
  | Int k => bind (float_of_int k) (fun k' => Ok (float_add acc k'))
  | Float f => Ok (float_add acc f)
  end.

(** ** [round(x, ndigits)] on floats

    CPython rounds the exact binary value to [ndigits] decimals, ties to
    even, and converts the decimal result back to the nearest double.
    Zeros, infinities and NaN round to themselves. *)

Definition half_even_div (a d : Z) : Z :=
  let q := a / d in
  let r := a mod d in
  match 2 * r ?= d with
  | Lt => q
  | Gt => q + 1
  | Eq => if Z.even q then q else q + 1
  end.

(** The integer nearest to [m * 2^e * 10^ndigits]. *)
Definition scaled_int (ndigits : Z) (m : positive) (e : Z) : Z :=
  let a := Zpos m * 10 ^ ndigits in
  if 0 <=? e then a * 2 ^ e else half_even_div a (2 ^ (- e)).

Definition round (x : float) (ndigits : Z) : float :=
  match x with
  | S754_finite s m e =>
      match scaled_int ndigits m e with
      | Zpos n => float_div (S754_finite s n 0) (nearest_float (10 ^ ndigits))
      | _ => S754_zero s
      end
  | _ => x
  end.

(** ** [datetime]: microseconds since the epoch, UTC *)
Definition datetime : Type := Z.

(** [o is None] *)
Definition is_None {A} (o : option A) : bool :=
  match o with None => true | Some _ => false end.

(** Truthiness of [str]: the empty string is falsy. *)
Definition str_bool (s : string) : bool :=
  match s with EmptyString => false | _ => true end.

End Py.

Export Py.

Declare Scope py_scope.
Delimit Scope py_scope with py.
Notation "x <- c ;; k" := (Py.bind c (fun x => k))
  (at level 61, c at next level, right associativity) : py_scope.
Notation "' pat <- c ;; k" := (Py.bind c (fun x => match x with pat => k end))
  (at level 61, pat pattern, c at next level, right associativity) : py_scope.
Local Open Scope py_scope.

(* ================================================================== *)
(** * schemas.py *)
(* ================================================================== *)

Module Schemas.

(** [Field(..., ge=lo)] and [Field(..., le=hi)] on an [int] *)
Definition int_ge (lo v : Z) : bool := lo <=? v.
Definition int_le (hi v : Z) : bool := v <=? hi.
(** the same on a [float]: a NaN satisfies neither *)
Definition float_ge (lo v : float) : bool := float_le lo v.
Definition float_le' (hi v : float) : bool := float_le v hi.

(** An [Optional] field is checked only when it is present. *)
Definition optional {A} (check : A -> bool) (o : option A) : bool :=
  match o with None => true | Some v => check v end.

Module User.
Record t : Type := mk {
  username : string;
  full_name : option string;
  bio : option string;
  avatar_url : option string;
  city : option string;
  level : option string;
  goals : option (list string)
}.
(** [User(username=..., full_name=..., city=...)]: the other fields take
    their declared defaults. *)
Definition create (username : string) (full_name city : option string) : t :=
  mk username full_name None None city (Some "beginner") (Some []).
End User.

Module ExerciseSet.
Record t : Type := mk {
  reps : Z;
  weight : float;
  rest_sec : option Z;
  rpe : option float
}.
Definition validate (s : t) : bool :=
  int_ge 1 (reps s)
  && float_ge float_0 (weight s)
  && optional (int_ge 0) (rest_sec s)
  && optional (fun x => float_ge float_1 x && float_le' float_10 x) (rpe s).
End ExerciseSet.

Module WorkoutExercise.
Record t : Type := mk {
  name : string;
  sets : list ExerciseSet.t
}.
Definition validate (ex : t) : bool :=
  forallb ExerciseSet.validate (sets ex).
End WorkoutExercise.

Module Workout.
Record t : Type := mk {
  user_id : string;
  notes : option string;
  duration_min : option Z;
  fatigue : option Z;
  exercises : list WorkoutExercise.t;
  total_volume : option float;
  total_sets : option Z;
  total_reps : option Z;
  date : option datetime;
  likes : option Z;
  media_url : option string
}.
Definition validate (w : t) : bool :=
  optional (int_ge 0) (duration_min w)
  && optional (fun x => int_ge 1 x && int_le 10 x) (fatigue w)
  && forallb WorkoutExercise.validate (exercises w)
  && optional (float_ge float_0) (total_volume w)
  && optional (int_ge 0) (total_sets w)
  && optional (int_ge 0) (total_reps w)
  && optional (int_ge 0) (likes w).
End Workout.

Module Challenge.
Record t : Type := mk {
  title : string;
  description : option string;
  metric : string;
  target : float;
  period : string;
  starts_at : option datetime;
  ends_at : option datetime
}.
Definition validate (c : t) : bool := float_ge float_0 (target c).
End Challenge.

(** Declared by [schemas.py]; no handler uses it. *)
Module Reaction.
Record t : Type := mk {
  workout_id : string;
  type : string;
  user_id : option string
}.
End Reaction.

End Schemas.

Export Schemas.

(* ================================================================== *)
(** * pymongo: the driver calls made by main.py *)
(* ================================================================== *)

Module Mongo.

(** ** [bson.ObjectId]: twelve bytes, written as 24 hexadecimal digits *)

Definition ObjectId : Type := N.

Definition hex_digit (c : ascii) : option N :=
  let n := N_of_ascii c in
  if ((48 <=? n) && (n <=? 57))%N then Some (n - 48)%N
  else if ((97 <=? n) && (n <=? 102))%N then Some (n - 87)%N
  else if ((65 <=? n) && (n <=? 70))%N then Some (n - 55)%N
  else None.

Fixpoint parse_hex (s : string) (acc : N) : option N :=
  match s with
  | EmptyString => Some acc
  | String c s' =>
      match hex_digit c with
      | Some d => parse_hex s' (16 * acc + d)%N
      | None => None
      end
  end.

(** The identifier a string denotes, when it is 24 hexadecimal digits. *)
Definition parse_ObjectId (s : string) : option ObjectId :=
  if (String.length s =? 24)%nat then parse_hex s 0%N else None.

(** [ObjectId(s)]: raises [InvalidId] on any other string. *)
Definition ObjectId_of_str (s : string) : result ObjectId :=
  match parse_ObjectId s with
  | Some o => Ok o
  | None => Raise InvalidId
  end.

(** The server-side operator [{"$toObjectId": s}]: the server fails the
    command on a string it cannot convert, and the driver raises
    [OperationFailure]. *)
Definition toObjectId (s : string) : result ObjectId :=
  match parse_ObjectId s with
  | Some o => Ok o
  | None => Raise OperationFailure
  end.

Definition hex_char (d : N) : ascii :=
  ascii_of_N (if (d <? 10)%N then 48 + d else 87 + d)%N.

Fixpoint hex_digits (n : nat) (v : N) (acc : string) : string :=
  match n with
  | O => acc
  | S n' => hex_digits n' (v / 16)%N (String (hex_char (v mod 16)%N) acc)
  end.

(** [str(oid)] *)
Definition str_ObjectId (o : ObjectId) : string := hex_digits 24 o "".

(** ** Documents *)

(** The value under ["_id"]: an [ObjectId] in storage, a [str] once a
    handler has overwritten it. *)
Inductive id_value : Type :=
| IdObjectId (o : ObjectId)
| IdStr (s : string).

Record Document (A : Type) : Type := mkDocument {
  _id : id_value;
  body : A
}.
Arguments mkDocument {A} _ _.
Arguments _id {A} _.
Arguments body {A} _.

Definition Collection (A : Type) : Type := list (Document A).

(** [str(v)] *)
Definition str_id (v : id_value) : string :=
  match v with
  | IdObjectId o => str_ObjectId o
  | IdStr s => s
  end.

(** [d["_id"] = str(d["_id"])] *)
Definition stringify_id {A} (d : Document A) : Document A :=
  mkDocument (IdStr (str_id (_id d))) (body d).

(** [{"_id": {"$type": "objectId"}}] *)
Definition is_objectId (v : id_value) : bool :=
  match v with IdObjectId _ => true | IdStr _ => false end.

Definition id_eqb (a b : id_value) : bool :=
  match a, b with
  | IdObjectId x, IdObjectId y => (x =? y)%N
  | IdStr x, IdStr y => (x =? y)%string
  | _, _ => false
  end.

(** ** Collection methods *)

(** [find_one(filter)]: the first match in natural order, or [None]. *)
Definition find_one {A} (filter : Document A -> bool) (c : Collection A)
  : option (Document A) :=
  List.find filter c.

(** [find(filter)] *)
Definition find {A} (filter : Document A -> bool) (c : Collection A)
  : list (Document A) :=
  List.filter filter c.

(** [insert_one(doc)], with the identifier the driver generated. *)
Definition insert_one {A} (oid : ObjectId) (doc : A) (c : Collection A)
  : Collection A :=
  c ++ [mkDocument (IdObjectId oid) doc].

(** Order of a sort key that may be null: null sorts below every date. *)
Definition key_leb (a b : option datetime) : bool :=
  match a, b with
  | None, _ => true
  | Some _, None => false
  | Some x, Some y => x <=? y
  end.

(** [cursor.sort(key, -1)]: descending.  Documents with equal keys keep
    their natural order here; the server promises no order among them. *)
Fixpoint insert_desc {A} (key : A -> option datetime) (x : A) (l : list A)
  : list A :=
  match l with
  | [] => [x]
  | y :: l' =>
      if key_leb (key y) (key x) then x :: y :: l'
      else y :: insert_desc key x l'
  end.

Definition sort_desc {A} (key : A -> option datetime) (l : list A) : list A :=
  fold_right (insert_desc key) [] l.

(** [cursor.limit(n)]: a limit of 0 is no limit.  A negative limit asks
    for a single batch of at most [-n] documents, taken here to be the
    first [-n]. *)
Definition limit {A} (n : Z) (cursor : list A) : list A :=
  if n =? 0 then cursor else firstn (Z.abs_nat n) cursor.

(** [{"$inc": {"likes": 1}}]: the server refuses to increment a null. *)
Definition inc_likes (w : Workout.t) : result Workout.t :=
  match Workout.likes w with
  | Some n =>
      Ok (Workout.mk (Workout.user_id w) (Workout.notes w)
            (Workout.duration_min w) (Workout.fatigue w)
            (Workout.exercises w) (Workout.total_volume w)
            (Workout.total_sets w) (Workout.total_reps w) (Workout.date w)
            (Some (n + 1)) (Workout.media_url w))
  | None => Raise OperationFailure
  end.

(** [find_one_and_update(filter, update, return_document=True)]: updates the
    first match and returns it as updated, together with the collection
    after the call; [None] and the collection as it was when nothing
    matches. *)
Fixpoint find_one_and_update {A} (filter : Document A -> bool)
    (update : A -> result A) (c : Collection A)
  : result (option (Document A) * Collection A) :=
  match c with
  | [] => Ok (None, [])
  | d :: c' =>
      if filter d then
        b <- update (body d) ;;
        Ok (Some (mkDocument (_id d) b), mkDocument (_id d) b :: c')
      else
        '(r, c'') <- find_one_and_update filter update c' ;;
        Ok (r, d :: c'')
  end.

End Mongo.

Export Mongo.

(* ================================================================== *)
(** * database.py *)
(* ================================================================== *)

Module Database.

(** Modelled from the spec: [database.py] is not among the sources.  The
    spec describes it as the document store adapter: one collection per
    record type, "every record is created via a single insert call
    returning a storage-assigned identifier", and a connection handle [db]
    that is "checked for null before use". *)
Record t : Type := mk {
  user : Collection User.t;
  workout : Collection Workout.t;
  challenge : Collection Challenge.t;
  next_id : ObjectId
}.

(** The handle [db]: [None] when no connection is configured. *)
Definition handle : Type := option t.

(** A collection name, as a way into the database: [db[name]]. *)
Record collection (A : Type) : Type := mkCollection {
  get : t -> Collection A;
  set : Collection A -> t -> t
}.
Arguments get {A} _ _.
Arguments set {A} _ _ _.

Definition user_ : collection User.t :=
  mkCollection _ user (fun c d => mk c (workout d) (challenge d) (next_id d)).
Definition workout_ : collection Workout.t :=
  mkCollection _ workout (fun c d => mk (user d) c (challenge d) (next_id d)).
Definition challenge_ : collection Challenge.t :=
  mkCollection _ challenge (fun c d => mk (user d) (workout d) c (next_id d)).

Definition fresh_id (d : t) : t :=
  mk (user d) (workout d) (challenge d) (N.succ (next_id d)).

(** Modelled from the spec: [create_document(collection_name, data)] is
    missing with [database.py].  "created via a single insert call
    returning a storage-assigned identifier"; identifiers are "rendered as
    strings"; without a connection the storage failure "is allowed to
    surface as a generic server error". *)
Definition create_document {A} (name : collection A) (data : A) (db : handle)
  : result string * handle :=
  match db with
  | None => (Raise DatabaseNotAvailable, db)
  | Some d =>
      let oid := next_id d in
      (Ok (str_ObjectId oid),
       Some (fresh_id (set name (insert_one oid data (get name d)) d)))
  end.

(** Modelled from the spec: [get_documents(collection_name, filter, limit)]
    is missing with [database.py].  "fetch up to [limit] ... records in
    storage-default order". *)
Definition get_documents {A} (name : collection A)
    (filter : Document A -> bool) (limit : Z) (db : handle)
  : result (list (Document A)) :=
  match db with
  | None => Raise DatabaseNotAvailable
  | Some d => Ok (firstn (Z.to_nat limit) (find filter (get name d)))
  end.

End Database.

(* ================================================================== *)
(** * main.py *)
(* ================================================================== *)

Module Main.

Import Database.

(** The state a handler runs in: the module-level handle [db]. *)
Definition db_handle : Type := Database.handle.

(** ** Utility: derived metrics of a workout *)

(** One pass of the inner loop body, on the three running totals. *)
Definition add_set (totals : float * Z * Z) (s : ExerciseSet.t)
  : result (float * Z * Z) :=
  let '(total_volume, total_sets, total_reps) := totals in
  let total_sets := total_sets + 1 in
  let total_reps := total_reps + ExerciseSet.reps s in
  x <- int_mul (ExerciseSet.reps s) (or_0 (ExerciseSet.weight s)) ;;
  total_volume <- float_iadd total_volume x ;;
  Ok (total_volume, total_sets, total_reps).

(** The outer loop body: [for s in ex.sets: ...] *)
Definition add_exercise (totals : float * Z * Z) (ex : WorkoutExercise.t)
  : result (float * Z * Z) :=
  for_each add_set (WorkoutExercise.sets ex) totals.

Definition compute_workout_metrics (now : datetime) (workout : Workout.t)
  : result Workout.t :=
  '(total_volume, total_sets, total_reps) <-
     for_each add_exercise (Workout.exercises workout) (float_0, 0, 0) ;;
  Ok (Workout.mk
        (Workout.user_id workout) (Workout.notes workout)
        (Workout.duration_min workout) (Workout.fatigue workout)
        (Workout.exercises workout)
        (Some (round total_volume 2))
        (Some total_sets)
        (Some total_reps)
        (if is_None (Workout.date workout) then Some now
         else Workout.date workout)
        (if is_None (Workout.likes workout) then Some 0
         else Workout.likes workout)
        (Workout.media_url workout)).

(** ** Users *)

Module CreateUserRequest.
Record t : Type := mk {
  username : string;
  full_name : option string;
  city : option string
}.
End CreateUserRequest.

(** [{"username": payload.username}] *)
Definition by_username (name : string) (u : Document User.t) : bool :=
  (User.username (body u) =? name)%string.

(** Answers [{"id": ..., "username": ...}]. *)
Definition create_user (payload : CreateUserRequest.t) (db : db_handle)
  : result (string * string) * db_handle :=
  let existing :=
    match db with
    | Some d => find_one (by_username (CreateUserRequest.username payload)) (user d)
    | None => None
    end in
  match existing with
  | Some _ => (Raise (HTTPException 400 "Username already exists"), db)
  | None =>
      let user := User.create (CreateUserRequest.username payload)
                    (CreateUserRequest.full_name payload)
                    (CreateUserRequest.city payload) in
      match create_document user_ user db with
      | (Ok user_id, db') => (Ok (user_id, User.username user), db')
      | (Raise e, db') => (Raise e, db')
      end
  end.

(** The empty filter [{}]. *)
Definition any {A} (_ : Document A) : bool := true.

Definition list_users (limit : Z) (db : db_handle)
  : result (list (Document User.t)) :=
  users <- get_documents user_ any limit db ;;
  Ok (map stringify_id users).

(** ** Workouts *)

(** [class CreateWorkoutRequest(Workout): pass] *)
Definition CreateWorkoutRequest : Type := Workout.t.

(** Answers [{"id": ..., "total_volume": ...}]. *)
Definition create_workout (now : datetime) (payload : CreateWorkoutRequest)
    (db : db_handle)
  : result (string * option float) * db_handle :=
  match compute_workout_metrics now payload with
  | Raise e => (Raise e, db)
  | Ok workout =>
      match create_document workout_ workout db with
      | (Ok workout_id, db') =>
          (Ok (workout_id, Workout.total_volume workout), db')
      | (Raise e, db') => (Raise e, db')
      end
  end.

(** [{"user_id": user} if user else {}]: a missing and an empty [user]
    are both falsy. *)
Definition feed_query (user : option string) (w : Document Workout.t) : bool :=
  match user with
  | Some u =>
      if str_bool u then (Workout.user_id (body w) =? u)%string else true
  | None => true
  end.

Definition by_date (w : Document Workout.t) : option datetime :=
  Workout.date (body w).

Definition get_feed (user : option string) (limit : Z) (db : db_handle)
  : result (list (Document Workout.t)) :=
  match db with
  | None => Raise TypeError
  | Some d =>
      let workouts :=
        Mongo.limit limit (sort_desc by_date (find (feed_query user) (workout d))) in
      Ok (map stringify_id workouts)
  end.

(** The first query of [like_workout].  The dict literal names ["_id"]
    twice and keeps the second entry:
    [{"_id": {"$type": "objectId"},
      "$expr": {"$eq": ["$_id", {"$toObjectId": workout_id}]}}]. *)
Definition like_query (oid : ObjectId) (w : Document Workout.t) : bool :=
  is_objectId (_id w) && id_eqb (_id w) (IdObjectId oid).

(** The query of the fallback: [{"_id": ObjectId(workout_id)}]. *)
Definition by_id (oid : ObjectId) (w : Document Workout.t) : bool :=
  id_eqb (_id w) (IdObjectId oid).

Definition like_workout (workout_id : string) (db : db_handle)
  : result (Document Workout.t) * db_handle :=
  match db with
  | None => (Raise TypeError, db)
  | Some d =>
      match (oid <- toObjectId workout_id ;;
             find_one_and_update (like_query oid) inc_likes (workout d)) with
      | Raise e => (Raise e, db)
      | Ok (updated, c) =>
          let d := set workout_ c d in
          let '(updated, d) :=
            match updated with
            | Some _ => (updated, d)
            | None =>
                (* try: ... except Exception: pass *)
                match (oid <- ObjectId_of_str workout_id ;;
                       find_one_and_update (by_id oid) inc_likes (workout d)) with
                | Ok (updated, c) => (updated, set workout_ c d)
                | Raise _ => (None, d)
                end
            end in
          match updated with
          | None => (Raise (HTTPException 404 "Workout not found"), Some d)
          | Some updated => (Ok (stringify_id updated), Some d)
          end
      end
  end.

(** ** Challenges *)

Definition create_challenge (challenge : Challenge.t) (db : db_handle)
  : result string * db_handle :=
  create_document challenge_ challenge db.

Definition list_challenges (limit : Z) (db : db_handle)
  : result (list (Document Challenge.t)) :=
  docs <- get_documents challenge_ any limit db ;;
  Ok (map stringify_id docs).

(** ** The routes

    A request as the framework hands it to a handler: the body already
    parsed into the annotated model, query parameters optional. *)
Inductive request : Type :=
| POST_api_users (payload : CreateUserRequest.t)
| GET_api_users (limit : option Z)
| POST_api_workouts (payload : CreateWorkoutRequest)
| GET_api_workouts (user : option string) (limit : option Z)
| POST_api_workouts_like (workout_id : string)
| POST_api_challenges (challenge : Challenge.t)
| GET_api_challenges (limit : option Z).

Inductive response : Type :=
| UserCreated (id username : string)
| Users (users : list (Document User.t))
| WorkoutCreated (id : string) (total_volume : option float)
| Workouts (workouts : list (Document Workout.t))
| WorkoutLiked (updated : Document Workout.t)
| ChallengeCreated (id : string)
| Challenges (docs : list (Document Challenge.t)).

(** [limit: int = 20] *)
Definition default_limit (limit : option Z) : Z :=
  match limit with Some n => n | None => 20 end.

Definition answer {A} (f : A -> response) (r : result A * db_handle)
  : result response * db_handle :=
  match r with
  | (Ok a, db) => (Ok (f a), db)
  | (Raise e, db) => (Raise e, db)
  end.

(** One request against the application.  The framework validates a body
    against its model and answers 422 without calling the handler when a
    [Field] constraint fails. *)
Definition app (now : datetime) (req : request) (db : db_handle)
  : result response * db_handle :=
  match req with
  | POST_api_users payload =>
      answer (fun '(id, username) => UserCreated id username)
             (create_user payload db)
  | GET_api_users limit =>
      answer Users (list_users (default_limit limit) db, db)
  | POST_api_workouts payload =>
      if Workout.validate payload then
        answer (fun '(id, total_volume) => WorkoutCreated id total_volume)
               (create_workout now payload db)
      else (Raise RequestValidationError, db)
  | GET_api_workouts user limit =>
      answer Workouts (get_feed user (default_limit limit) db, db)
  | POST_api_workouts_like workout_id =>
      answer WorkoutLiked (like_workout workout_id db)
  | POST_api_challenges challenge =>
      if Challenge.validate challenge then
        answer ChallengeCreated (create_challenge challenge db)
      else (Raise RequestValidationError, db)
  | GET_api_challenges limit =>
      answer Challenges (list_challenges (default_limit limit) db, db)
  end.

End Main.

Export Main.

(* ================================================================== *)
(** * The vocabulary of the specification *)
(* ================================================================== *)

(** Every set of a workout, exercise by exercise. *)
Definition all_sets (w : Workout.t) : list ExerciseSet.t :=
  flat_map WorkoutExercise.sets (Workout.exercises w).

(** "count of all sets across all exercises" *)
Definition count_sets (l : list ExerciseSet.t) : Z := Z.of_nat (List.length l).

(** "sum of reps across all sets" *)
Definition sum_reps (l : list ExerciseSet.t) : Z :=
  fold_right (fun s acc => ExerciseSet.reps s + acc) 0 l.

(** "reps x (weight or 0)" for one set *)
Definition set_volume (s : ExerciseSet.t) : result number :=
  int_mul (ExerciseSet.reps s) (or_0 (ExerciseSet.weight s)).

(** "sum over every set of (reps x (weight or 0)) ... accumulate as
    floating point": the running float sum from [acc], left to right,
    not rounded. *)
Definition sum_volume_from (acc : float) (l : list ExerciseSet.t)
  : result float :=
  for_each (fun acc s => x <- set_volume s ;; float_iadd acc x) l acc.

Definition sum_volume (l : list ExerciseSet.t) : result float :=
  sum_volume_from float_0 l.

(** The int-to-float conversion of [z] succeeds. *)
Definition convertible (z : Z) : Prop := exists f, float_of_int z = Ok f.

(** The mantissa of a shift record together with its round bit. *)
Definition with_round_bit (r : shr_record) : Z :=
  2 * shr_m r + Z.b2z (shr_r r).

(** Every product [reps * weight] of the workout can be formed: where the
    weight is non-zero, [reps] is in the range of the integers that
    convert to a float, below [2^1024 - 2^970] in magnitude. *)
Definition products_representable (w : Workout.t) : Prop :=
  forall s, In s (all_sets w) ->
    float_bool (ExerciseSet.weight s) = true ->
    Z.abs (ExerciseSet.reps s) < 2 ^ 1024 - 2 ^ 970.

(** The workout [w] with its derived fields, date and likes replaced. *)
Definition with_metrics (w : Workout.t) (volume : float) (nsets nreps : Z)
    (date : option datetime) (likes : option Z) : Workout.t :=
  Workout.mk (Workout.user_id w) (Workout.notes w) (Workout.duration_min w)
    (Workout.fatigue w) (Workout.exercises w)
    (Some volume) (Some nsets) (Some nreps) date likes (Workout.media_url w).

(** [o] when present, [d] otherwise *)
Definition defaulted {A} (o : option A) (d : A) : option A :=
  match o with Some _ => o | None => Some d end.





(** The workout [w] with its like counter replaced. *)
Definition with_likes (w : Workout.t) (n : Z) : Workout.t :=
  Workout.mk (Workout.user_id w) (Workout.notes w) (Workout.duration_min w)
    (Workout.fatigue w) (Workout.exercises w) (Workout.total_volume w)
    (Workout.total_sets w) (Workout.total_reps w) (Workout.date w)
    (Some n) (Workout.media_url w).

(** Every record of [d] is still in [d'], unchanged and in place; [d'] may
    hold new records after them. *)
Definition keeps_records (d d' : Database.t) : Prop :=
  (exists new, Database.user d' = Database.user d ++ new) /\
  (exists new, Database.workout d' = Database.workout d ++ new) /\
  (exists new, Database.challenge d' = Database.challenge d ++ new).

Definition is_like (req : request) : bool :=
  match req with POST_api_workouts_like _ => true | _ => false end.

(** Every stored workout carries a like counter, as every workout that
    went through [compute_workout_metrics] does. *)
Definition likes_set (d : Database.t) : Prop :=
  Forall (fun w => Workout.likes (body w) <> None) (Database.workout d).

(** [a] may stand before [b] in a descending sort by [key]. *)
Definition before {A} (key : A -> option datetime) (a b : A) : Prop :=
  key_leb (key b) (key a) = true.

(** Most recent first: every document is at least as recent as those
    after it. *)
Definition newest_first (l : list (Document Workout.t)) : Prop :=
  StronglySorted (before by_date) l.

(** The workouts a feed request for [user] selects, most recent first. *)
Definition feed_of (user : option string) (d : Database.t)
    (sorted : list (Document Workout.t)) : Prop :=
  Permutation sorted (find (feed_query user) (Database.workout d)) /\
  newest_first sorted.

(** The identifier has been rendered as a string. *)
Definition id_is_str {A} (d : Document A) : Prop := exists s, _id d = IdStr s.

(* ================================================================== *)
(** * Sample payloads and stores *)
(* ================================================================== *)

Definition float_100 : float := nearest_float 100.

Definition a_set (reps : Z) (weight : float) : ExerciseSet.t :=
  ExerciseSet.mk reps weight (Some 90) None.

Definition a_workout (user_id : string) (date : option datetime)
    (exercises : list WorkoutExercise.t) : Workout.t :=
  Workout.mk user_id None None None exercises None None None date (Some 0) None.

(** The example of the specification: two sets of five at 100 kg. *)
Definition bench_workout : Workout.t :=
  a_workout "alice" None
    [WorkoutExercise.mk "Bench" [a_set 5 float_100; a_set 5 float_100]].

(** One set whose repetition count, [2^1024], is beyond the largest
    double. *)
Definition heavy_workout : Workout.t :=
  a_workout "alice" None
    [WorkoutExercise.mk "Bench" [a_set (2 ^ 1024) float_1]].



(** The bench workout as stored by the first request to an empty
    database at time 5. *)
Definition stored_bench : Document Workout.t :=
  mkDocument (IdObjectId 0%N)
    (with_metrics bench_workout (nearest_float 1000) 2 10 (Some 5) (Some 0)).

Definition one_workout_db : Database.t :=
  Database.mk [] [stored_bench] [] 1%N.


(** Three stored workouts, not in date order: dates 10, 30 and 20. *)
Definition stored_at (oid : ObjectId) (user_id : string) (date : datetime)
  : Document Workout.t :=
  mkDocument (IdObjectId oid) (a_workout user_id (Some date) []).

Definition three_workouts_db : Database.t :=
  Database.mk []
    [stored_at 0%N "alice" 10; stored_at 1%N "bob" 30; stored_at 2%N "alice" 20]
    [] 3%N.

(* ================================================================== *)
(** * main.py: the diagnostic routes *)
(* ================================================================== *)

Module Diagnostics.

(** [GET /]: a fixed body. *)
Definition root : list (string * string) :=
  [("name", "FitTrack API"); ("status", "ok")].

(** [GET /schema]: the collection names, fixed. *)
Definition get_schema_overview : list string := ["user"; "workout"; "challenge"].

(** A call that returns a value or raises an exception [e], of which the
    route only reads [str(e)]. *)
Inductive attempt (A : Type) : Type :=
| Returned (a : A)
| Raised (message : string).
Arguments Returned {A} a.
Arguments Raised {A} message.

(** What [test_database] reads of the handle [db] when it is not [None]:
    the attribute [db.name] and the call [db.list_collection_names()]. *)
Record connection : Type := mkConnection {
  name : string;
  list_collection_names : attempt (list string)
}.

(** The two variables read with [os.getenv]. *)
Record environ : Type := mkEnviron {
  DATABASE_URL : option string;
  DATABASE_NAME : option string
}.

(** The dict the route builds; the two [None] entries are overwritten
    before it is returned. *)
Record status : Type := mkStatus {
  backend : string;
  database : string;
  database_url : option string;
  database_name : option string;
  connection_status : string;
  collections : list string
}.

(** Truthiness of [os.getenv(...)]: unset and empty are both falsy. *)
Definition getenv_bool (v : option string) : bool :=
  match v with Some s => str_bool s | None => false end.

(** [s[:n]], a message taken as a string of one-byte characters. *)
Definition prefix (n : nat) (s : string) : string := substring 0 n s.

(** The state of the dict after the [try] block.  Nothing in the outer
    [try] raises apart from [list_collection_names], which the inner
    [try] catches. *)
Definition probe (db : option connection) : status :=
  let response :=
    mkStatus "✅ Running" "❌ Not Available" None None "Not Connected" [] in
  match db with
  | Some db =>
      let response :=
        mkStatus (backend response) "✅ Available" (Some "✅ Configured")
          (Some (name db)) "Connected" (collections response) in
      match list_collection_names db with
      | Returned names =>
          mkStatus (backend response) "✅ Connected & Working"
            (database_url response) (database_name response)
            (connection_status response) (firstn 10 names)
      | Raised e =>
          mkStatus (backend response)
            ("⚠️  Connected but Error: " ++ prefix 50 e)%string
            (database_url response) (database_name response)
            (connection_status response) (collections response)
      end
  | None =>
      mkStatus (backend response) "⚠️  Available but not initialized"
        (database_url response) (database_name response)
        (connection_status response) (collections response)
  end.

Definition test_database (db : option connection) (env : environ) : status :=
  let response := probe db in
  mkStatus (backend response) (database response)
    (Some (if getenv_bool (DATABASE_URL env) then "✅ Set" else "❌ Not Set"))
    (Some (if getenv_bool (DATABASE_NAME env) then "✅ Set" else "❌ Not Set"))
    (connection_status response) (collections response).

End Diagnostics.

(* ================================================================== *)
(** * More vocabulary *)
(* ================================================================== *)



(** [k] like requests for the same identifier, one after the other. *)
Fixpoint like_times (k : nat) (workout_id : string) (db : db_handle)
  : db_handle :=
  match k with
  | O => db
  | S k' => like_times k' workout_id (snd (like_workout workout_id db))
  end.

(** [like_workout] without its fallback: the first query alone. *)
Definition like_workout_first_query (workout_id : string) (d : Database.t)
  : result (Document Workout.t) * db_handle :=
  match toObjectId workout_id with
  | Raise e => (Raise e, Some d)
  | Ok oid =>
      match find_one_and_update (like_query oid) inc_likes (Database.workout d) with
      | Raise e => (Raise e, Some d)
      | Ok (Some updated, c) =>
          (Ok (stringify_id updated), Some (Database.set Database.workout_ c d))
      | Ok (None, _) => (Raise (HTTPException 404 "Workout not found"), Some d)
      end
  end.



(** A float that is not negative and not a NaN. *)
Definition nonneg (x : float) : Prop :=
  match x with
  | S754_zero _ => True
  | S754_infinity s => s = false
  | S754_finite s _ _ => s = false
  | S754_nan => False
  end.


Definition a_connection (name : string) : Diagnostics.connection :=
  Diagnostics.mkConnection name
    (Diagnostics.Returned ["user"; "workout"; "challenge"]).


(* ================================================================== *)
(** * Int-to-float conversion: which integers convert *)
(* ================================================================== *)

(** [digits2_pos p] is the number of binary digits of [p]. *)
Lemma digits2_pos_bounds (p : positive) :
  2 ^ (Zpos (digits2_pos p) - 1) <= Zpos p < 2 ^ Zpos (digits2_pos p).
Proof.
  induction p as [p IH|p IH|]; cbn [digits2_pos].
  - rewrite Pos2Z.inj_succ, Z.pow_succ_r by lia.
    replace (Z.succ (Zpos (digits2_pos p)) - 1) with (Z.succ (Zpos (digits2_pos p) - 1)) by lia.
    rewrite Z.pow_succ_r by lia. lia.
  - rewrite Pos2Z.inj_succ, Z.pow_succ_r by lia.
    replace (Z.succ (Zpos (digits2_pos p)) - 1) with (Z.succ (Zpos (digits2_pos p) - 1)) by lia.
    rewrite Z.pow_succ_r by lia. lia.
  - simpl. lia.
Qed.

Lemma Zdigits2_nonneg (m : Z) : 0 <= Zdigits2 m.
Proof. destruct m; simpl; lia. Qed.

Lemma Zdigits2_lt_pow (m : Z) : 0 <= m -> m < 2 ^ Zdigits2 m.
Proof.
  destruct m as [|p|p]; intros H; simpl Zdigits2; [simpl; lia| |lia].
  apply digits2_pos_bounds.
Qed.

Lemma Zdigits2_le (m k : Z) : 0 <= k -> 0 <= m < 2 ^ k -> Zdigits2 m <= k.
Proof.
  intros Hk [H0 Hm]. destruct m as [|p|p]; simpl Zdigits2; [lia| |lia].
  destruct (Z_le_gt_dec (Zpos (digits2_pos p)) k) as [H|H]; [exact H|].
  pose proof (digits2_pos_bounds p) as [Hlo _].
  assert (2 ^ k <= 2 ^ (Zpos (digits2_pos p) - 1)) by (apply Z.pow_le_mono_r; lia).
  lia.
Qed.

(** A right shift by one bit drops one digit of the mantissa. *)
Lemma shr_1_digits (r : shr_record) :
  0 <= shr_m r ->
  0 <= shr_m (shr_1 r) /\
  Zdigits2 (shr_m (shr_1 r)) = Z.max 0 (Zdigits2 (shr_m r) - 1).
Proof.
  destruct r as [m rb sb]. simpl shr_m at 1. intros H.
  destruct m as [|[p|p|]|p]; cbn [shr_1 shr_m Zdigits2 digits2_pos orb];
    rewrite ?Pos2Z.inj_succ; try lia.
  all: destruct (rb || sb); cbn [shr_m Zdigits2]; lia.
Qed.

Lemma iter_shr_1_digits (n : positive) (r : shr_record) :
  0 <= shr_m r ->
  0 <= shr_m (iter_pos shr_1 n r) /\
  Zdigits2 (shr_m (iter_pos shr_1 n r)) = Z.max 0 (Zdigits2 (shr_m r) - Zpos n).
Proof.
  revert r; induction n as [n IH|n IH|]; intros r H; cbn [iter_pos].
  - destruct (shr_1_digits r H) as [H1 E1].
    destruct (IH _ H1) as [H2 E2]. destruct (IH _ H2) as [H3 E3].
    split; [exact H3|]. rewrite E3, E2, E1. lia.
  - destruct (IH _ H) as [H2 E2]. destruct (IH _ H2) as [H3 E3].
    split; [exact H3|]. rewrite E3, E2. lia.
  - apply shr_1_digits, H.
Qed.

Lemma shr_m_of_loc (m : Z) (l : location) : shr_m (shr_record_of_loc m l) = m.
Proof. destruct l as [|[]]; reflexivity. Qed.

(** One [shr_fexp] step: the exponent and the magnitude after it. *)
Lemma shr_fexp_bounds (m e : Z) (l : location) :
  0 <= m ->
  let '(r, e') := shr_fexp prec emax m e l in
  0 <= shr_m r /\
  e' <= Z.max e (fexp prec emax (Zdigits2 m + e)) /\
  Zdigits2 (shr_m r) + e' <= Z.max (Zdigits2 m + e) (fexp prec emax (Zdigits2 m + e)).
Proof.
  intros H. unfold shr_fexp, shr.
  destruct (fexp prec emax (Zdigits2 m + e) - e) as [|n|n] eqn:E.
  - rewrite shr_m_of_loc. lia.
  - destruct (iter_shr_1_digits n (shr_record_of_loc m l)) as [H1 E1].
    { rewrite shr_m_of_loc. exact H. }
    rewrite shr_m_of_loc in E1. split; [exact H1|]. rewrite E1. lia.
  - rewrite shr_m_of_loc. lia.
Qed.

(** Rounding adds at most one digit. *)
Lemma round_nearest_even_bounds (m : Z) (l : location) :
  0 <= m ->
  0 <= round_nearest_even m l /\
  Zdigits2 (round_nearest_even m l) <= Zdigits2 m + 1.
Proof.
  intros H.
  assert (Hs : Zdigits2 (m + 1) <= Zdigits2 m + 1).
  { apply Zdigits2_le; [pose proof (Zdigits2_nonneg m); lia|].
    pose proof (Zdigits2_lt_pow m H). pose proof (Zdigits2_nonneg m).
    rewrite Z.pow_add_r by lia. simpl (2 ^ 1). lia. }
  unfold round_nearest_even. destruct l as [|[]]; try destruct (Z.even m); lia.
Qed.

(** A magnitude of at most 1023 binary digits stays finite. *)
Lemma binary_round_aux_finite (s s' : bool) (m e : Z) (l : location) :
  0 <= m -> e <= 971 -> Zdigits2 m + e <= 1023 ->
  binary_round_aux prec emax s m e l <> S754_infinity s'.
Proof.
  intros Hm He Hd. unfold binary_round_aux.
  pose proof (shr_fexp_bounds m e l Hm) as H1.
  destruct (shr_fexp prec emax m e l) as [r1 e1]. destruct H1 as [H1 [He1 Hd1]].
  destruct (round_nearest_even_bounds (shr_m r1) (loc_of_shr_record r1) H1)
    as [H2 Hd2].
  pose proof (shr_fexp_bounds _ e1 loc_Exact H2) as H3.
  destruct (shr_fexp prec emax _ e1 loc_Exact) as [r2 e2].
  destruct H3 as [H3 [He2 _]].
  unfold fexp, SpecFloat.emin, prec, emax in *.
  destruct (shr_m r2) as [|p|p]; try discriminate.
  replace (e2 <=? 1024 - 53) with true by (symmetry; apply Z.leb_le; lia).
  discriminate.
Qed.

Lemma digits2_pos_iter_xO (m d : positive) :
  Zpos (digits2_pos (Pos.iter xO m d)) = Zpos (digits2_pos m) + Zpos d.
Proof.
  induction d as [|d IH] using Pos.peano_ind.
  - simpl. rewrite Pos2Z.inj_succ. lia.
  - rewrite Pos.iter_succ. cbn [digits2_pos].
    rewrite !Pos2Z.inj_succ, IH. lia.
Qed.

(** A right shift by one bit halves the mantissa extended by its round
    bit. *)
Lemma shr_1_round_bit (r : shr_record) :
  0 <= shr_m r -> with_round_bit (shr_1 r) = with_round_bit r / 2.
Proof.
  intros H. transitivity (shr_m r).
  - destruct r as [m rb sb]. unfold with_round_bit. simpl shr_m in *.
    destruct m as [|[p|p|]|p]; cbn [shr_1 shr_m shr_r Z.b2z]; lia.
  - unfold with_round_bit. apply Z.div_unique with (r := Z.b2z (shr_r r)).
    + destruct (shr_r r); simpl; lia.
    + lia.
Qed.

Lemma iter_shr_1_round_bit (n : positive) (r : shr_record) :
  0 <= shr_m r ->
  with_round_bit (iter_pos shr_1 n r) = with_round_bit r / 2 ^ Zpos n.
Proof.
  revert r; induction n as [n IH|n IH|]; intros r H; cbn [iter_pos].
  - pose proof (shr_1_digits r H) as [H1 _].
    pose proof (iter_shr_1_digits n _ H1) as [H2 _].
    rewrite (IH _ H2), (IH _ H1), shr_1_round_bit by exact H.
    rewrite !Z.div_div by lia. f_equal.
    assert (E : 2 ^ Zpos n~1 = 2 * (2 ^ Zpos n * 2 ^ Zpos n)).
    { rewrite <- Z.pow_add_r, <- Z.pow_succ_r by lia. f_equal. lia. }
    rewrite E. lia.
  - pose proof (iter_shr_1_digits n _ H) as [H2 _].
    rewrite (IH _ H2), (IH _ H).
    rewrite !Z.div_div by lia. f_equal.
    rewrite <- Z.pow_add_r by lia. f_equal. lia.
  - rewrite shr_1_round_bit by exact H. reflexivity.
Qed.

(** Rounding goes up by at most half a unit of the round bit. *)
Lemma round_nearest_even_le (r : shr_record) :
  2 * round_nearest_even (shr_m r) (loc_of_shr_record r) <= with_round_bit r + 1.
Proof.
  destruct r as [m [] []]; unfold with_round_bit, round_nearest_even;
    cbn [shr_m shr_r loc_of_shr_record Z.b2z];
    try destruct (Z.even m); lia.
Qed.

Lemma binary_round_finite_digits (s s' : bool) (m : positive) :
  Zpos (digits2_pos m) <= 1023 ->
  binary_round prec emax s m 0 <> S754_infinity s'.
Proof.
  intros Hd. unfold binary_round.
  destruct (shl_align m 0 (fexp prec emax (Zpos (digits2_pos m) + 0)))
    as [mz ez] eqn:E.
  unfold shl_align in E.
  destruct (fexp prec emax (Zpos (digits2_pos m) + 0) - 0) as [|d|d] eqn:Ed;
    injection E as <- <-.
  - apply binary_round_aux_finite; simpl Zdigits2; lia.
  - apply binary_round_aux_finite; simpl Zdigits2; lia.
  - unfold fexp, SpecFloat.emin, prec, emax in *.
    apply binary_round_aux_finite; [lia|lia|].
    simpl Zdigits2. rewrite digits2_pos_iter_xO. lia.
Qed.

(** The last binade: 1024 digits, below the midpoint to [2^1024]. *)
Lemma binary_round_finite_top (s s' : bool) (m : positive) :
  Zpos (digits2_pos m) = 1024 ->
  Zpos m < 2 ^ 1024 - 2 ^ 970 ->
  binary_round prec emax s m 0 <> S754_infinity s'.
Proof.
  intros Hd Hm. unfold binary_round, shl_align.
  rewrite Hd. change (fexp prec emax (1024 + 0) - 0) with 971.
  unfold binary_round_aux, shr_fexp. cbn [Zdigits2]. rewrite Hd.
  change (fexp prec emax (1024 + 0) - 0) with 971. cbn [shr].
  set (r1 := iter_pos shr_1 971 (shr_record_of_loc (Zpos m) loc_Exact)).
  assert (H0 : 0 <= shr_m (shr_record_of_loc (Zpos m) loc_Exact)) by (simpl; lia).
  pose proof (iter_shr_1_digits 971 _ H0) as [H1 _]. fold r1 in H1.
  pose proof (iter_shr_1_round_bit 971 _ H0) as HX. fold r1 in HX.
  change (with_round_bit (shr_record_of_loc (Zpos m) loc_Exact))
    with (2 * Zpos m + 0) in HX.
  pose proof (round_nearest_even_le r1) as Hle.
  destruct (round_nearest_even_bounds (shr_m r1) (loc_of_shr_record r1) H1)
    as [H2 _].
  set (m2 := round_nearest_even (shr_m r1) (loc_of_shr_record r1)) in *.
  assert (HX' : with_round_bit r1 < 2 ^ 54 - 1).
  { rewrite HX. apply Z.div_lt_upper_bound; lia. }
  assert (Hm2 : Zdigits2 m2 <= 53) by (apply Zdigits2_le; lia).
  pose proof (shr_fexp_bounds m2 (0 + 971) loc_Exact H2) as H3.
  unfold shr_fexp in H3.
  destruct (shr (shr_record_of_loc m2 loc_Exact) (0 + 971)
              (fexp prec emax (Zdigits2 m2 + (0 + 971)) - (0 + 971)))
    as [r2 e2].
  destruct H3 as [_ [He2 _]].
  unfold fexp, SpecFloat.emin, prec, emax in *.
  destruct (shr_m r2) as [|p|p]; try discriminate.
  replace (e2 <=? 1024 - 53) with true by (symmetry; apply Z.leb_le; lia).
  discriminate.
Qed.

(** Every integer below [2^1024 - 2^970] in magnitude converts. *)
Lemma convertible_below (z : Z) :
  Z.abs z < 2 ^ 1024 - 2 ^ 970 -> convertible z.
Proof.
  intros Hz.
  assert (H : forall s s' m, Zpos m < 2 ^ 1024 - 2 ^ 970 ->
                binary_round prec emax s m 0 <> S754_infinity s').
  { intros s s' m Hm.
    assert (Hd : Zpos (digits2_pos m) <= 1024).
    { apply (Zdigits2_le (Zpos m)); lia. }
    destruct (Z.eq_dec (Zpos (digits2_pos m)) 1024) as [E|E].
    - apply binary_round_finite_top; assumption.
    - apply binary_round_finite_digits. lia. }
  unfold convertible, float_of_int, nearest_float, binary_normalize.
  destruct z as [|m|m].
  - eexists. reflexivity.
  - pose proof (fun s' => H false s' m Hz) as Hf.
    destruct (binary_round prec emax false m 0) as [| s' | |]; eauto.
    exfalso. apply (Hf s'). reflexivity.
  - pose proof (fun s' => H true s' m Hz) as Hf.
    destruct (binary_round prec emax true m 0) as [| s' | |]; eauto.
    exfalso. apply (Hf s'). reflexivity.
Qed.

Lemma Zdigits2_mono (a b : Z) : 0 <= a <= b -> Zdigits2 a <= Zdigits2 b.
Proof.
  intros H. apply Zdigits2_le; [apply Zdigits2_nonneg|].
  pose proof (Zdigits2_lt_pow b). lia.
Qed.

Lemma Zdigits2_pos_gt (m : Z) : 0 <= m -> 0 < Zdigits2 m -> 0 < m.
Proof. destruct m; simpl; lia. Qed.

(** One [shr_fexp] step on a normal magnitude: nothing is lost at the
    top. *)
Lemma shr_fexp_lower (m e : Z) (l : location) :
  0 < m -> -1021 <= Zdigits2 m + e ->
  let '(r, e') := shr_fexp prec emax m e l in
  0 < shr_m r /\ e <= e' /\ Zdigits2 m + e - 53 <= e' /\
  Zdigits2 (shr_m r) + e' = Zdigits2 m + e.
Proof.
  intros Hm HD. unfold shr_fexp, shr.
  assert (Hdig : 0 < Zdigits2 m) by (destruct m; simpl in *; lia).
  destruct (fexp prec emax (Zdigits2 m + e) - e) as [|n|n] eqn:E;
    unfold fexp, SpecFloat.emin, prec, emax in E.
  - rewrite shr_m_of_loc. lia.
  - destruct (iter_shr_1_digits n (shr_record_of_loc m l)) as [H1 E1].
    { rewrite shr_m_of_loc. lia. }
    rewrite shr_m_of_loc in E1.
    assert (Hpos : 0 < Zdigits2 (shr_m (iter_pos shr_1 n (shr_record_of_loc m l))))
      by lia.
    split; [apply Zdigits2_pos_gt; assumption|]. lia.
  - rewrite shr_m_of_loc. lia.
Qed.

Lemma round_nearest_even_ge (m : Z) (l : location) : m <= round_nearest_even m l.
Proof.
  unfold round_nearest_even. destruct l as [|[]]; try destruct (Z.even m); lia.
Qed.

(** A magnitude of more than 1024 binary digits rounds to infinity. *)
Lemma binary_round_aux_infinite (s : bool) (m e : Z) (l : location) :
  0 < m -> 1025 <= Zdigits2 m + e ->
  binary_round_aux prec emax s m e l = S754_infinity s.
Proof.
  intros Hm HD. unfold binary_round_aux.
  pose proof (shr_fexp_lower m e l Hm) as H1.
  destruct (shr_fexp prec emax m e l) as [r1 e1].
  destruct H1 as [H1 [_ [He1 HD1]]]; [lia|].
  pose proof (round_nearest_even_ge (shr_m r1) (loc_of_shr_record r1)) as Hge.
  set (m2 := round_nearest_even (shr_m r1) (loc_of_shr_record r1)) in *.
  assert (Hd2 : Zdigits2 (shr_m r1) <= Zdigits2 m2) by (apply Zdigits2_mono; lia).
  pose proof (shr_fexp_lower m2 e1 loc_Exact) as H3.
  destruct (shr_fexp prec emax m2 e1 loc_Exact) as [r2 e2].
  destruct H3 as [H3 [He2 _]]; [lia|lia|].
  destruct (shr_m r2) as [|p|p]; try lia.
  unfold prec, emax.
  replace (e2 <=? 1024 - 53) with false by (symmetry; apply Z.leb_gt; lia).
  reflexivity.
Qed.

(** The last binade, from the midpoint on: the mantissa rounds up to
    [2^53] and the exponent leaves the range. *)
Lemma binary_round_infinite_top (s : bool) (m : positive) :
  Zpos (digits2_pos m) = 1024 ->
  2 ^ 1024 - 2 ^ 970 <= Zpos m ->
  binary_round prec emax s m 0 = S754_infinity s.
Proof.
  intros Hd Hm. unfold binary_round, shl_align.
  rewrite Hd. change (fexp prec emax (1024 + 0) - 0) with 971.
  unfold binary_round_aux, shr_fexp. cbn [Zdigits2]. rewrite Hd.
  change (fexp prec emax (1024 + 0) - 0) with 971. cbn [shr].
  set (r1 := iter_pos shr_1 971 (shr_record_of_loc (Zpos m) loc_Exact)).
  assert (H0 : 0 <= shr_m (shr_record_of_loc (Zpos m) loc_Exact)) by (simpl; lia).
  pose proof (iter_shr_1_round_bit 971 _ H0) as HX. fold r1 in HX.
  change (with_round_bit (shr_record_of_loc (Zpos m) loc_Exact))
    with (2 * Zpos m + 0) in HX.
  assert (Hlt : Zpos m < 2 ^ 1024).
  { pose proof (digits2_pos_bounds m) as [_ H]. rewrite Hd in H. exact H. }
  assert (HX' : with_round_bit r1 = 2 ^ 54 - 1).
  { rewrite HX. symmetry.
    apply Z.div_unique with (r := 2 * Zpos m + 0 - 2 ^ 971 * (2 ^ 54 - 1)); lia. }
  unfold with_round_bit in HX'. destruct r1 as [m1 rb sb]. cbn [shr_m shr_r] in *.
  destruct rb; simpl Z.b2z in HX'; [|lia].
  assert (Hm1 : m1 = 2 ^ 53 - 1) by lia. subst m1.
  destruct sb; vm_compute; destruct s; reflexivity.
Qed.

(** No integer from [2^1024 - 2^970] on converts. *)
Lemma not_convertible_from (z : Z) :
  2 ^ 1024 - 2 ^ 970 <= Z.abs z -> float_of_int z = Raise OverflowError.
Proof.
  intros Hz.
  assert (H : forall s m, 2 ^ 1024 - 2 ^ 970 <= Zpos m ->
                binary_round prec emax s m 0 = S754_infinity s).
  { intros s m Hm.
    assert (Hd : 1024 <= Zpos (digits2_pos m)).
    { pose proof (digits2_pos_bounds m) as [_ Hup].
      destruct (Z_le_gt_dec 1024 (Zpos (digits2_pos m))) as [Hd|Hd]; [exact Hd|].
      assert (2 ^ Zpos (digits2_pos m) <= 2 ^ 1023)
        by (apply Z.pow_le_mono_r; lia).
      lia. }
    destruct (Z.eq_dec (Zpos (digits2_pos m)) 1024) as [E|E].
    - apply binary_round_infinite_top; assumption.
    - unfold binary_round, shl_align.
      destruct (fexp prec emax (Zpos (digits2_pos m) + 0) - 0) as [|d|d] eqn:Ed;
        unfold fexp, SpecFloat.emin, prec, emax in Ed; try lia.
      apply binary_round_aux_infinite; simpl Zdigits2; lia. }
  unfold float_of_int, nearest_float, binary_normalize.
  destruct z as [|m|m]; [simpl in Hz; lia| |]; rewrite H by exact Hz; reflexivity.
Qed.

(** The integers that convert to a float. *)
Lemma convertible_iff (z : Z) :
  convertible z <-> Z.abs z < 2 ^ 1024 - 2 ^ 970.
Proof.
  split; [|apply convertible_below].
  intros [f Hf]. destruct (Z_lt_ge_dec (Z.abs z) (2 ^ 1024 - 2 ^ 970)) as [H|H];
    [exact H|].
  rewrite not_convertible_from in Hf by lia. discriminate.
Qed.
(* ================================================================== *)
(** * Metrics computation *)
(* ================================================================== *)

(** A sequence that returned went through both of its steps. *)
Lemma bind_Ok {A B} (c : result A) (k : A -> result B) (b : B) :
  bind c k = Ok b -> exists a, c = Ok a /\ k a = Ok b.
Proof.
  destruct c as [a|e]; simpl; intros H; [eauto | discriminate].
Qed.

(** A loop over [l1 ++ l2] is the loop over [l1] followed by the loop
    over [l2]. *)
Lemma for_each_app {A S} (body : S -> A -> result S) (l1 l2 : list A) (st : S) :
  for_each body (l1 ++ l2) st = bind (for_each body l1 st) (for_each body l2).
Proof.
  revert st; induction l1 as [|x l1 IH]; intros st; simpl; [reflexivity|].
  destruct (body st x) as [st'|e]; simpl; [apply IH | reflexivity].
Qed.

Lemma totals_eq (v : float) (n n' r r' : Z) :
  n = n' -> r = r' -> @Ok (float * Z * Z) (v, n, r) = Ok (v, n', r').
Proof. intros -> ->. reflexivity. Qed.

Lemma count_sets_app l1 l2 : count_sets (l1 ++ l2) = count_sets l1 + count_sets l2.
Proof. unfold count_sets. rewrite List.length_app. lia. Qed.

Lemma sum_reps_app l1 l2 : sum_reps (l1 ++ l2) = sum_reps l1 + sum_reps l2.
Proof.
  induction l1 as [|s l1 IH]; simpl; [reflexivity|]. rewrite IH. lia.
Qed.

Lemma sum_volume_from_app acc l1 l2 :
  sum_volume_from acc (l1 ++ l2) =
  bind (sum_volume_from acc l1) (fun v => sum_volume_from v l2).
Proof. apply for_each_app. Qed.

(** The inner loop keeps three independent running totals. *)
Lemma add_exercise_totals (ex : WorkoutExercise.t) (v : float) (n r : Z) :
  add_exercise (v, n, r) ex =
  (v' <- sum_volume_from v (WorkoutExercise.sets ex) ;;
   Ok (v', n + count_sets (WorkoutExercise.sets ex),
       r + sum_reps (WorkoutExercise.sets ex))).
Proof.
  unfold add_exercise, sum_volume_from.
  generalize (WorkoutExercise.sets ex) as l. intros l.
  revert v n r; induction l as [|s l IH]; intros v n r.
  - simpl. unfold count_sets. simpl. apply totals_eq; lia.
  - cbn [for_each]. unfold add_set at 1. fold (set_volume s).
    destruct (set_volume s) as [x|e]; simpl; [|reflexivity].
    destruct (float_iadd v x) as [v1|e]; simpl; [|reflexivity].
    rewrite IH.
    destruct (for_each _ l v1) as [v2|e]; simpl; [|reflexivity].
    unfold count_sets. cbn [List.length sum_reps fold_right].
    apply totals_eq; lia.
Qed.

(** So do the two loops together, over the sets of all exercises. *)
Lemma exercises_totals (exs : list WorkoutExercise.t) (v : float) (n r : Z) :
  for_each add_exercise exs (v, n, r) =
  (v' <- sum_volume_from v (flat_map WorkoutExercise.sets exs) ;;
   Ok (v', n + count_sets (flat_map WorkoutExercise.sets exs),
       r + sum_reps (flat_map WorkoutExercise.sets exs))).
Proof.
  revert v n r; induction exs as [|ex exs IH]; intros v n r.
  - simpl. unfold count_sets. simpl. apply totals_eq; lia.
  - cbn [for_each flat_map]. rewrite add_exercise_totals.
    rewrite sum_volume_from_app, count_sets_app, sum_reps_app.
    destruct (sum_volume_from v (WorkoutExercise.sets ex)) as [v1|e];
      simpl; [|reflexivity].
    rewrite IH.
    destruct (sum_volume_from v1 _) as [v2|e]; simpl; [|reflexivity].
    apply totals_eq; lia.
Qed.

(** What [compute_workout_metrics] returns, on every input. *)
Lemma compute_workout_metrics_eq (now : datetime) (w : Workout.t) :
  compute_workout_metrics now w =
  (v <- sum_volume (all_sets w) ;;
   Ok (with_metrics w (round v 2) (count_sets (all_sets w))
         (sum_reps (all_sets w))
         (defaulted (Workout.date w) now) (defaulted (Workout.likes w) 0))).
Proof.
  unfold compute_workout_metrics, sum_volume, all_sets.
  rewrite exercises_totals.
  destruct (sum_volume_from float_0 _) as [v|e]; simpl; [|reflexivity].
  unfold with_metrics, defaulted.
  destruct (Workout.date w), (Workout.likes w); reflexivity.
Qed.

(** A set whose product can be formed adds to the running sum without
    raising. *)
Lemma set_volume_Ok (s : ExerciseSet.t) :
  (float_bool (ExerciseSet.weight s) = true -> convertible (ExerciseSet.reps s)) ->
  exists x, set_volume s = Ok x /\ exists v, forall acc, float_iadd acc x = Ok (v acc).
Proof.
  intros H. unfold set_volume, or_0.
  destruct (float_bool (ExerciseSet.weight s)).
  - destruct (H eq_refl) as [f Hf]. simpl. rewrite Hf. simpl.
    eexists; split; [reflexivity|].
    exists (fun acc => float_add acc (float_mul f (ExerciseSet.weight s))).
    reflexivity.
  - simpl. rewrite Z.mul_0_r. eexists; split; [reflexivity|].
    exists (fun acc => float_add acc float_0). intros acc. reflexivity.
Qed.

Lemma sum_volume_from_Ok (l : list ExerciseSet.t) (acc : float) :
  (forall s, In s l -> float_bool (ExerciseSet.weight s) = true ->
             convertible (ExerciseSet.reps s)) ->
  exists v, sum_volume_from acc l = Ok v.
Proof.
  revert acc; induction l as [|s l IH]; intros acc H.
  - exists acc. reflexivity.
  - unfold sum_volume_from. cbn [for_each].
    destruct (set_volume_Ok s) as [x [Hx [v Hv]]].
    { apply H. left. reflexivity. }
    rewrite Hx. simpl. rewrite Hv. simpl.
    apply IH. intros s' Hs'. apply H. right. exact Hs'.
Qed.

(** Conversely, a sum that was formed converted every [reps] it
    multiplied. *)
Lemma sum_volume_from_representable (l : list ExerciseSet.t) (acc v : float) :
  sum_volume_from acc l = Ok v ->
  forall s, In s l -> float_bool (ExerciseSet.weight s) = true ->
            convertible (ExerciseSet.reps s).
Proof.
  revert acc; induction l as [|s0 l IH]; intros acc H s Hin Hw; [destruct Hin|].
  unfold sum_volume_from in H. cbn [for_each] in H.
  apply bind_Ok in H. destruct H as [acc' [H0 H]].
  destruct Hin as [<-|Hin]; [|eapply IH; eauto].
  apply bind_Ok in H0. destruct H0 as [x [Hx _]].
  unfold set_volume, or_0 in Hx. rewrite Hw in Hx. simpl in Hx.
  apply bind_Ok in Hx. destruct Hx as [f [Hf _]]. exists f. exact Hf.
Qed.

(** The computation returns exactly on the workouts whose products can
    be formed. *)
Lemma compute_workout_metrics_returns (now : datetime) (w : Workout.t) :
  (exists w', compute_workout_metrics now w = Ok w') <-> products_representable w.
Proof.
  rewrite compute_workout_metrics_eq. split.
  - intros [w' H]. apply bind_Ok in H. destruct H as [v [Hv _]].
    intros s Hin Hw. apply convertible_iff.
    eapply sum_volume_from_representable; eauto.
  - intros H. destruct (sum_volume_from_Ok (all_sets w) float_0) as [v Hv].
    { intros s Hin Hw. apply convertible_iff, H; assumption. }
    unfold sum_volume. rewrite Hv. eexists. reflexivity.
Qed.

Lemma bench_products_representable : products_representable bench_workout.
Proof.
  intros s Hin _. simpl in Hin.
  destruct Hin as [<-|[<-|[]]]; simpl; lia.
Qed.

(** C1 (as amended).  For every workout whose products [reps * weight]
    can be formed (every set with a non-zero weight has its reps below
    [2^1024 - 2^970] in magnitude, the integers that convert to a float),
    [compute_workout_metrics] returns the workout with [total_sets] the
    number of sets of all exercises, [total_reps] the sum of their reps,
    and [total_volume] the float sum of [reps * (weight or 0)] over all
    sets, accumulated unrounded and then rounded once to two decimals;
    [date] and [likes] are filled in when absent and every other field is
    kept.  With no exercise or no set the three totals are 0. *)
Theorem compute_workout_metrics_totals (now : datetime) (w : Workout.t) :
  products_representable w ->
  exists v,
    sum_volume (all_sets w) = Ok v /\
    compute_workout_metrics now w =
      Ok (with_metrics w (round v 2) (count_sets (all_sets w))
            (sum_reps (all_sets w))
            (defaulted (Workout.date w) now)
            (defaulted (Workout.likes w) 0)) /\
    (all_sets w = [] ->
     round v 2 = float_0 /\ count_sets (all_sets w) = 0 /\
     sum_reps (all_sets w) = 0).
Proof.
  intros Hrep.
  destruct (sum_volume_from_Ok (all_sets w) float_0) as [v Hv].
  { intros s Hin Hw. apply convertible_iff, Hrep; assumption. }
  exists v. split; [exact Hv|]. split.
  - rewrite compute_workout_metrics_eq. unfold sum_volume. rewrite Hv.
    reflexivity.
  - intros Hnil. rewrite Hnil in *. unfold sum_volume_from in Hv.
    simpl in Hv. injection Hv as <-. repeat split.
Qed.

Lemma compute_workout_metrics_totals_witness :
  products_representable bench_workout /\
  compute_workout_metrics 1234 bench_workout =
    Ok (with_metrics bench_workout (nearest_float 1000) 2 10
          (Some 1234) (Some 0)).
Proof.
  split; [exact bench_products_representable|].
  destruct (compute_workout_metrics_totals 1234 bench_workout
              bench_products_representable) as [v [Hv [Hc _]]].
  vm_compute in Hv. injection Hv as <-. rewrite Hc. vm_compute. reflexivity.
Defined.

(** C1, as stated, fails: a payload that passes validation and on which
    the computation raises [OverflowError] instead of returning a
    workout. *)
Lemma compute_workout_metrics_overflow :
  Workout.validate heavy_workout = true /\
  compute_workout_metrics 0 heavy_workout = Raise OverflowError.
Proof. split; vm_compute; reflexivity. Qed.

(** The two integers at the boundary of the conversion. *)
Lemma float_of_int_largest :
  float_of_int (2 ^ 1024 - 2 ^ 970 - 1) = Ok (SFmax_float prec emax) /\
  float_of_int (2 ^ 1024 - 2 ^ 970) = Raise OverflowError.
Proof. split; vm_compute; reflexivity. Qed.

Lemma all_sets_with_metrics w v n r d l :
  all_sets (with_metrics w v n r d l) = all_sets w.
Proof. reflexivity. Qed.

Lemma defaulted_idem {A} (o : option A) (d d' : A) :
  defaulted (defaulted o d) d' = defaulted o d.
Proof. destruct o; reflexivity. Qed.

(** C8.  Applying the metrics computation to its own result changes
    nothing: the second application returns exactly what the first one
    returned, whatever the clock reads by then; in particular
    [total_volume], [total_sets] and [total_reps] are the same after two
    applications as after one.  (A date that was null is assigned by the
    first application and kept by the second.) *)
Theorem compute_workout_metrics_idempotent (now now' : datetime) (w : Workout.t) :
  (w1 <- compute_workout_metrics now w ;; compute_workout_metrics now' w1) =
  compute_workout_metrics now w.
Proof.
  rewrite (compute_workout_metrics_eq now w).
  destruct (sum_volume (all_sets w)) as [v|e] eqn:Hv; simpl; [|reflexivity].
  rewrite compute_workout_metrics_eq, all_sets_with_metrics, Hv. simpl.
  unfold with_metrics at 1. simpl. rewrite !defaulted_idem. reflexivity.
Qed.

(** With [reps >= 1] throughout, each set adds at least as much to the
    reps as to the count. *)
Lemma reps_ge_sets (l : list ExerciseSet.t) :
  (forall s, In s l -> 1 <= ExerciseSet.reps s) ->
  count_sets l <= sum_reps l /\
  (sum_reps l = count_sets l <-> forall s, In s l -> ExerciseSet.reps s = 1).
Proof.
  induction l as [|s l IH]; intros H.
  - split; [reflexivity|]. split; [intros _ s []|reflexivity].
  - assert (Hs : 1 <= ExerciseSet.reps s) by (apply H; left; reflexivity).
    destruct IH as [Hle Hiff].
    { intros s' Hs'. apply H. right. exact Hs'. }
    unfold count_sets in *. cbn [List.length sum_reps fold_right] in *.
    fold (sum_reps l) in *.
    rewrite Nat2Z.inj_succ. split; [lia|]. split.
    + intros Heq s' [<-|Hin]; [lia|]. apply Hiff; [lia|exact Hin].
    + intros Hall.
      assert (H1 : ExerciseSet.reps s = 1) by (apply Hall; left; reflexivity).
      assert (H2 : sum_reps l = Z.of_nat (List.length l)).
      { apply Hiff. intros s' Hs'. apply Hall. right. exact Hs'. }
      lia.
Qed.

(** C10.  When every set has [reps >= 1], the computed metrics satisfy
    [total_reps >= total_sets], with equality exactly when every set has
    [reps = 1]. *)
Theorem total_reps_ge_total_sets (now : datetime) (w w' : Workout.t) :
  (forall s, In s (all_sets w) -> 1 <= ExerciseSet.reps s) ->
  compute_workout_metrics now w = Ok w' ->
  exists nsets nreps,
    Workout.total_sets w' = Some nsets /\
    Workout.total_reps w' = Some nreps /\
    nsets <= nreps /\
    (nreps = nsets <-> forall s, In s (all_sets w) -> ExerciseSet.reps s = 1).
Proof.
  intros Hreps Hc. rewrite compute_workout_metrics_eq in Hc.
  apply bind_Ok in Hc. destruct Hc as [v [_ Hw]]. injection Hw as <-.
  exists (count_sets (all_sets w)), (sum_reps (all_sets w)).
  destruct (reps_ge_sets (all_sets w) Hreps) as [Hle Hiff].
  repeat split; try assumption; apply Hiff.
Qed.

Lemma total_reps_ge_total_sets_witness :
  (forall s, In s (all_sets bench_workout) -> 1 <= ExerciseSet.reps s) /\
  exists nsets nreps,
    Workout.total_sets (with_metrics bench_workout (nearest_float 1000) 2 10
                          (Some 1234) (Some 0)) = Some nsets /\
    Workout.total_reps (with_metrics bench_workout (nearest_float 1000) 2 10
                          (Some 1234) (Some 0)) = Some nreps /\
    nsets <= nreps /\
    (nreps = nsets <->
     forall s, In s (all_sets bench_workout) -> ExerciseSet.reps s = 1).
Proof.
  assert (H : forall s, In s (all_sets bench_workout) -> 1 <= ExerciseSet.reps s).
  { intros s Hin. simpl in Hin. destruct Hin as [<-|[<-|[]]]; simpl; lia. }
  split; [exact H|].
  apply (total_reps_ge_total_sets 1234 bench_workout _ H).
  vm_compute. reflexivity.
Defined.


(* ================================================================== *)
(** * Validation *)
(* ================================================================== *)








(* ================================================================== *)
(** * Storage: likes and users *)
(* ================================================================== *)

Lemma set_workout_same (d : Database.t) :
  Database.set Database.workout_ (Database.workout d) d = d.
Proof. destruct d; reflexivity. Qed.

(** Nothing matches: nothing is returned and nothing is written. *)
Lemma find_one_and_update_no_match {A} (filter : Document A -> bool)
    (update : A -> result A) (c : Collection A) :
  (forall x, In x c -> filter x = false) ->
  find_one_and_update filter update c = Ok (None, c).
Proof.
  induction c as [|x c IH]; intros H; [reflexivity|].
  cbn [find_one_and_update].
  assert (Hx : filter x = false) by (apply H; left; reflexivity).
  rewrite Hx, IH; [reflexivity|]. intros y Hy. apply H. right. exact Hy.
Qed.

(** The first match is the one document rewritten. *)
Lemma find_one_and_update_first {A} (filter : Document A -> bool)
    (update : A -> result A) (pre post : Collection A) (x : Document A) (b : A) :
  (forall y, In y pre -> filter y = false) ->
  filter x = true ->
  update (body x) = Ok b ->
  find_one_and_update filter update (pre ++ x :: post) =
  Ok (Some (mkDocument (_id x) b), pre ++ mkDocument (_id x) b :: post).
Proof.
  intros Hpre Hx Hb. induction pre as [|y pre IH].
  - simpl. rewrite Hx, Hb. reflexivity.
  - simpl.
    assert (Hy : filter y = false) by (apply Hpre; left; reflexivity).
    rewrite Hy, IH; [reflexivity|]. intros z Hz. apply Hpre. right. exact Hz.
Qed.

Lemma id_eqb_eq (a b : id_value) : id_eqb a b = true <-> a = b.
Proof.
  destruct a as [x|x], b as [y|y]; simpl; split; intros H;
    try discriminate; try (injection H as ->).
  - apply N.eqb_eq in H. subst. reflexivity.
  - apply N.eqb_refl.
  - apply String.eqb_eq in H. subst. reflexivity.
  - apply String.eqb_refl.
Qed.

Lemma id_eqb_neq (a b : id_value) : a <> b -> id_eqb a b = false.
Proof.
  intros H. destruct (id_eqb a b) eqn:E; [|reflexivity].
  apply id_eqb_eq in E. contradiction.
Qed.

Lemma like_query_by_id (oid : ObjectId) (w : Document Workout.t) :
  like_query oid w = by_id oid w.
Proof.
  unfold like_query, by_id. destruct (_id w); reflexivity.
Qed.

(** C2, on the code.  A like request whose identifier matches no stored
    workout leaves the database as it was.  It is answered with
    404 "Workout not found" when the identifier is well formed (24
    hexadecimal digits); on any other identifier the first query already
    fails in [$toObjectId], outside the [try], and the request ends in
    [OperationFailure], a status 500. *)
Theorem like_unknown_workout (workout_id : string) (d : Database.t) :
  (forall oid w, parse_ObjectId workout_id = Some oid ->
                 In w (Database.workout d) -> _id w <> IdObjectId oid) ->
  like_workout workout_id (Some d) =
    (match parse_ObjectId workout_id with
     | Some _ => Raise (HTTPException 404 "Workout not found")
     | None => Raise OperationFailure
     end, Some d).
Proof.
  intros Hno. unfold like_workout, toObjectId, ObjectId_of_str.
  destruct (parse_ObjectId workout_id) as [oid|]; [|reflexivity].
  cbn [bind].
  assert (H1 : forall x, In x (Database.workout d) -> like_query oid x = false).
  { intros x Hx. rewrite like_query_by_id. apply id_eqb_neq. eapply Hno; eauto. }
  assert (H2 : forall x, In x (Database.workout d) -> by_id oid x = false).
  { intros x Hx. apply id_eqb_neq. eapply Hno; eauto. }
  rewrite (find_one_and_update_no_match _ _ _ H1).
  rewrite set_workout_same.
  rewrite (find_one_and_update_no_match _ _ _ H2).
  rewrite set_workout_same. reflexivity.
Qed.

Lemma like_unknown_workout_witness :
  like_workout "abc" (Some one_workout_db) =
    (Raise OperationFailure, Some one_workout_db) /\
  status_code_of (fst (like_workout "abc" (Some one_workout_db))) = 500 /\
  like_workout "000000000000000000000001" (Some one_workout_db) =
    (Raise (HTTPException 404 "Workout not found"), Some one_workout_db).
Proof.
  assert (H : like_workout "abc" (Some one_workout_db) =
              (Raise OperationFailure, Some one_workout_db)).
  { apply (like_unknown_workout "abc" one_workout_db).
    intros oid w Hp. vm_compute in Hp. discriminate. }
  split; [exact H|]. split; [rewrite H; reflexivity|].
  apply (like_unknown_workout "000000000000000000000001" one_workout_db).
  intros oid w Hp [<-|[]]. vm_compute in Hp. injection Hp as <-.
  discriminate.
Defined.

Lemma inc_likes_with_likes (w : Workout.t) (n : Z) :
  Workout.likes w = Some n -> inc_likes w = Ok (with_likes w (n + 1)).
Proof. unfold inc_likes. intros ->. reflexivity. Qed.

Lemma keeps_records_refl (d : Database.t) : keeps_records d d.
Proof. repeat split; exists []; rewrite app_nil_r; reflexivity. Qed.


(** ** Creating users *)





(** ** Liking workouts *)

(** Requests other than a like only ever append records. *)
Lemma app_keeps_records (now : datetime) (req : request) (d : Database.t)
    (r : result response) (db' : db_handle) :
  is_like req = false ->
  app now req (Some d) = (r, db') ->
  exists d', db' = Some d' /\ keeps_records d d'.
Proof.
  intros Hreq Happ.
  assert (Hsame : forall r0 : result response,
            (r0, Some d) = (r, db') -> exists d', db' = Some d' /\ keeps_records d d').
  { intros r0 H. injection H as _ <-. exists d. split; [reflexivity|].
    apply keeps_records_refl. }
  assert (Hanswer : forall A (f : A -> response) (x : result A),
            answer f (x, Some d) = (r, db') ->
            exists d', db' = Some d' /\ keeps_records d d').
  { intros A f [a|e] H; simpl in H; eapply Hsame; exact H. }
  destruct req; try discriminate; cbn [app] in Happ.
  - unfold create_user in Happ.
    destruct (find_one _ _); [eapply Hanswer; exact Happ|].
    simpl in Happ. injection Happ as _ <-. eexists. split; [reflexivity|].
    repeat split; simpl; eexists; try reflexivity;
      rewrite app_nil_r; reflexivity.
  - eapply Hanswer; exact Happ.
  - destruct (Workout.validate payload); [|eapply Hsame; exact Happ].
    unfold create_workout in Happ.
    destruct (compute_workout_metrics now payload) as [w|e];
      [|eapply Hanswer; exact Happ].
    simpl in Happ. injection Happ as _ <-. eexists. split; [reflexivity|].
    repeat split; simpl; eexists; try reflexivity;
      rewrite app_nil_r; reflexivity.
  - eapply Hanswer; exact Happ.
  - destruct (Challenge.validate challenge); [|eapply Hsame; exact Happ].
    simpl in Happ. injection Happ as _ <-. eexists. split; [reflexivity|].
    repeat split; simpl; eexists; try reflexivity;
      rewrite app_nil_r; reflexivity.
  - eapply Hanswer; exact Happ.
Qed.

(** C7.  A like request whose identifier is that of a stored workout
    adds exactly 1 to the likes of that workout (the first with that
    identifier) and changes nothing else: its other fields, the workouts
    before and after it, users, challenges.  The answer is the updated
    record with its identifier as a string.  And no other request changes
    a stored record: whatever was stored before is stored after, in
    place. *)
Theorem like_workout_increments (workout_id : string) (oid : ObjectId)
    (d : Database.t) (pre post : Collection Workout.t)
    (w : Document Workout.t) (n : Z) :
  parse_ObjectId workout_id = Some oid ->
  Database.workout d = pre ++ w :: post ->
  (forall x, In x pre -> _id x <> IdObjectId oid) ->
  _id w = IdObjectId oid ->
  Workout.likes (body w) = Some n ->
  like_workout workout_id (Some d) =
    (Ok (mkDocument (IdStr (str_ObjectId oid)) (with_likes (body w) (n + 1))),
     Some (Database.mk (Database.user d)
             (pre ++ mkDocument (IdObjectId oid) (with_likes (body w) (n + 1))
                  :: post)
             (Database.challenge d) (Database.next_id d)))
  /\
  (forall now req d0 r db',
     is_like req = false ->
     app now req (Some d0) = (r, db') ->
     exists d', db' = Some d' /\ keeps_records d0 d').
Proof.
  intros Hparse Hw Hpre Hid Hlikes. split.
  - unfold like_workout, toObjectId. rewrite Hparse. cbn [bind]. rewrite Hw.
    rewrite (find_one_and_update_first (like_query oid) inc_likes pre post w
               (with_likes (body w) (n + 1))).
    + rewrite Hid. reflexivity.
    + intros x Hx. rewrite like_query_by_id. apply id_eqb_neq, Hpre, Hx.
    + rewrite like_query_by_id. apply id_eqb_eq. exact Hid.
    + apply inc_likes_with_likes, Hlikes.
  - intros now req d0 r db'. apply app_keeps_records.
Qed.

Lemma like_workout_increments_witness :
  like_workout "000000000000000000000000" (Some one_workout_db) =
    (Ok (mkDocument (IdStr "000000000000000000000000")
           (with_likes (body stored_bench) 1)),
     Some (Database.mk []
             [mkDocument (IdObjectId 0%N) (with_likes (body stored_bench) 1)]
             [] 1%N)).
Proof.
  apply (like_workout_increments "000000000000000000000000" 0%N one_workout_db
           [] [] stored_bench 0).
  - vm_compute. reflexivity.
  - reflexivity.
  - intros x [].
  - reflexivity.
  - reflexivity.
Defined.

(** ** Stored workouts always carry a like counter *)

Lemma find_one_and_update_Forall {A} (P : Document A -> Prop)
    (filter : Document A -> bool) (update : A -> result A)
    (c c' : Collection A) (u : option (Document A)) :
  (forall x b, P x -> update (body x) = Ok b -> P (mkDocument (_id x) b)) ->
  Forall P c ->
  find_one_and_update filter update c = Ok (u, c') ->
  Forall P c'.
Proof.
  intros Hupd. revert c' u. induction c as [|x c IH]; intros c' u Hc H.
  - injection H as _ <-. constructor.
  - simpl in H. inversion Hc as [|? ? Hx Hc']; subst.
    destruct (filter x).
    + apply bind_Ok in H. destruct H as [b [Hb H]]. injection H as _ <-.
      constructor; [eapply Hupd; eauto|exact Hc'].
    + apply bind_Ok in H. destruct H as [[r c''] [Hr H]]. injection H as _ <-.
      constructor; [exact Hx|]. eapply IH; eauto.
Qed.

Lemma compute_workout_metrics_likes (now : datetime) (w w' : Workout.t) :
  compute_workout_metrics now w = Ok w' -> Workout.likes w' <> None.
Proof.
  rewrite compute_workout_metrics_eq. intros H.
  apply bind_Ok in H. destruct H as [v [_ H]]. injection H as <-.
  simpl. destruct (Workout.likes w); discriminate.
Qed.

(** Every request keeps the invariant, so it holds of every database
    filled through the API. *)
Lemma app_keeps_likes_set (now : datetime) (req : request) (d d' : Database.t)
    (r : result response) :
  likes_set d ->
  app now req (Some d) = (r, Some d') ->
  likes_set d'.
Proof.
  intros Hinv Happ. destruct (is_like req) eqn:Hlike.
  - destruct req; try discriminate. cbn [app] in Happ.
    unfold like_workout in Happ.
    destruct (toObjectId workout_id) as [oid|e]; cbn [bind] in Happ;
      [|injection Happ as _ <-; exact Hinv].
    assert (Hupd : forall (x : Document Workout.t) b,
              Workout.likes (body x) <> None -> inc_likes (body x) = Ok b ->
              Workout.likes (body (mkDocument (_id x) b)) <> None).
    { intros x b _ Hb. unfold inc_likes in Hb.
      destruct (Workout.likes (body x)); [|discriminate].
      injection Hb as <-. simpl. discriminate. }
    destruct (find_one_and_update (like_query oid) inc_likes (Database.workout d))
      as [[u c]|e] eqn:E1; [|simpl in Happ; injection Happ as _ <-; exact Hinv].
    assert (Hc : Forall (fun w => Workout.likes (body w) <> None) c).
    { eapply find_one_and_update_Forall; [exact Hupd|exact Hinv|exact E1]. }
    destruct u as [u|].
    + simpl in Happ. injection Happ as _ <-. exact Hc.
    + destruct (ObjectId_of_str workout_id) as [oid'|e]; cbn [bind] in Happ.
      * cbn [Database.set Database.workout_ Database.workout] in Happ.
        destruct (find_one_and_update (by_id oid') inc_likes c)
          as [[u c2]|e] eqn:E2.
        -- assert (Hc2 : Forall (fun w => Workout.likes (body w) <> None) c2).
           { eapply find_one_and_update_Forall; [exact Hupd|exact Hc|exact E2]. }
           destruct u; simpl in Happ; injection Happ as _ <-; exact Hc2.
        -- simpl in Happ. injection Happ as _ <-. exact Hc.
      * simpl in Happ. injection Happ as _ <-. exact Hc.
  - destruct req; try discriminate; cbn [app] in Happ.
    + unfold create_user in Happ. destruct (find_one _ _); simpl in Happ;
        injection Happ as _ <-; exact Hinv.
    + unfold answer in Happ. destruct (list_users _ _);
        injection Happ as _ <-; exact Hinv.
    + destruct (Workout.validate payload);
        [|injection Happ as _ <-; exact Hinv].
      unfold create_workout in Happ.
      destruct (compute_workout_metrics now payload) as [w|e] eqn:Ec;
        simpl in Happ; injection Happ as _ <-; [|exact Hinv].
      unfold likes_set. simpl. apply Forall_app. split; [exact Hinv|].
      constructor; [|constructor]. simpl.
      eapply compute_workout_metrics_likes, Ec.
    + unfold answer in Happ. destruct (get_feed _ _ _);
        injection Happ as _ <-; exact Hinv.
    + destruct (Challenge.validate challenge); simpl in Happ;
        injection Happ as _ <-; exact Hinv.
    + unfold answer in Happ. destruct (list_challenges _ _);
        injection Happ as _ <-; exact Hinv.
Qed.

(* ================================================================== *)
(** * The feed and the list endpoints *)
(* ================================================================== *)

Lemma key_leb_total (a b : option datetime) :
  key_leb a b = false -> key_leb b a = true.
Proof.
  destruct a as [x|], b as [y|]; simpl; intros H; try reflexivity;
    try discriminate.
  apply Z.leb_gt in H. apply Z.leb_le. lia.
Qed.

Lemma key_leb_trans (a b c : option datetime) :
  key_leb a b = true -> key_leb b c = true -> key_leb a c = true.
Proof.
  destruct a as [x|], b as [y|], c as [z|]; simpl; intros H1 H2;
    try reflexivity; try discriminate.
  apply Z.leb_le in H1, H2. apply Z.leb_le. lia.
Qed.

Section Sorting.

Context {A : Type} (key : A -> option datetime).

Lemma insert_desc_perm (x : A) (l : list A) :
  Permutation (insert_desc key x l) (x :: l).
Proof.
  induction l as [|y l IH]; simpl; [reflexivity|].
  destruct (key_leb (key y) (key x)); [reflexivity|].
  rewrite IH. apply perm_swap.
Qed.

Lemma sort_desc_perm (l : list A) : Permutation (sort_desc key l) l.
Proof.
  induction l as [|x l IH]; simpl; [reflexivity|].
  rewrite insert_desc_perm. apply perm_skip, IH.
Qed.

Lemma insert_desc_sorted (x : A) (l : list A) :
  StronglySorted (before key) l -> StronglySorted (before key) (insert_desc key x l).
Proof.
  induction l as [|y l IH]; intros Hl; simpl.
  - repeat constructor.
  - inversion Hl as [|? ? Hl' Hy]; subst.
    destruct (key_leb (key y) (key x)) eqn:E.
    + constructor; [exact Hl|]. constructor; [exact E|].
      rewrite Forall_forall in *. intros z Hz. unfold before in *.
      eapply key_leb_trans; [apply Hy, Hz|exact E].
    + constructor; [apply IH, Hl'|].
      rewrite Forall_forall in *. intros z Hz.
      apply (Permutation_in _ (insert_desc_perm x l)) in Hz.
      destruct Hz as [<-|Hz]; [apply key_leb_total, E|apply Hy, Hz].
Qed.

Lemma sort_desc_sorted (l : list A) : StronglySorted (before key) (sort_desc key l).
Proof.
  induction l as [|x l IH]; simpl; [constructor|].
  apply insert_desc_sorted, IH.
Qed.

End Sorting.

Lemma StronglySorted_firstn {A} (R : A -> A -> Prop) (n : nat) (l : list A) :
  StronglySorted R l -> StronglySorted R (firstn n l).
Proof.
  revert n; induction l as [|x l IH]; intros [|n] H; simpl; try constructor.
  - inversion H; subst. apply IH. assumption.
  - inversion H as [|? ? _ Hx]; subst. rewrite Forall_forall in *.
    intros y Hy. apply Hx. eapply (In_nth_error) in Hy.
    destruct Hy as [k Hk]. apply nth_error_In with (n := k).
    rewrite nth_error_firstn in Hk.
    destruct (k <? n)%nat; [exact Hk|discriminate].
Qed.

(** Two sorted arrangements of the same elements coincide when no two
    distinct elements tie. *)
Lemma StronglySorted_perm_eq {A} (R : A -> A -> Prop) (l1 l2 : list A) :
  (forall a b, In a l1 -> In b l1 -> R a b -> R b a -> a = b) ->
  StronglySorted R l1 -> StronglySorted R l2 -> Permutation l1 l2 -> l1 = l2.
Proof.
  revert l2; induction l1 as [|a l1 IH]; intros l2 Hanti H1 H2 Hp.
  - apply Permutation_nil in Hp. subst. reflexivity.
  - destruct l2 as [|b l2].
    { apply Permutation_sym, Permutation_nil in Hp. discriminate. }
    inversion H1 as [|? ? H1' Ha]; subst.
    inversion H2 as [|? ? H2' Hb]; subst.
    rewrite Forall_forall in Ha, Hb.
    assert (Hab : a = b).
    { assert (Hin_a : In a (b :: l2))
        by (apply (Permutation_in _ Hp); left; reflexivity).
      assert (Hin_b : In b (a :: l1))
        by (apply (Permutation_in _ (Permutation_sym Hp)); left; reflexivity).
      destruct Hin_a as [->|Hin_a]; [reflexivity|].
      destruct Hin_b as [->|Hin_b]; [reflexivity|].
      apply Hanti; [left; reflexivity|right; exact Hin_b| |].
      - apply Ha, Hin_b.
      - apply Hb, Hin_a. }
    subst b. f_equal. apply IH; try assumption.
    + intros x y Hx Hy. apply Hanti; right; assumption.
    + eapply Permutation_cons_inv, Hp.
Qed.

Lemma newest_first_stringify (l : list (Document Workout.t)) :
  newest_first l -> newest_first (map stringify_id l).
Proof.
  unfold newest_first. induction 1 as [|x l Hl IH Hx]; simpl; constructor.
  - exact IH.
  - rewrite Forall_forall in *. intros y Hy. apply in_map_iff in Hy.
    destruct Hy as [z [<- Hz]]. apply (Hx z Hz).
Qed.

Lemma stringify_ids {A} (l : list (Document A)) :
  Forall id_is_str (map stringify_id l).
Proof.
  rewrite Forall_forall. intros x Hx. apply in_map_iff in Hx.
  destruct Hx as [y [<- _]]. eexists. reflexivity.
Qed.

Lemma In_firstn {A} (n : nat) (l : list A) (x : A) :
  In x (firstn n l) -> In x l.
Proof.
  intros H. rewrite <- (firstn_skipn n l). apply in_or_app. left. exact H.
Qed.

Lemma limit_prefix {A} (n : Z) (l : list A) :
  exists k, Mongo.limit n l = firstn k l.
Proof.
  unfold Mongo.limit. destruct (n =? 0).
  - exists (List.length l). symmetry. apply firstn_all.
  - eexists. reflexivity.
Qed.

Lemma find_any {A} (c : Collection A) : find (fun _ => true) c = c.
Proof.
  unfold find. induction c as [|x c IH]; simpl; [reflexivity|].
  rewrite IH. reflexivity.
Qed.

Lemma feed_query_sound (user : option string) (u : string) (w : Document Workout.t) :
  feed_query user w = true -> user = Some u -> u <> "" ->
  Workout.user_id (body w) = u.
Proof.
  intros H -> Hu. unfold feed_query in H. destruct u as [|c u]; [contradiction|].
  simpl in H. apply String.eqb_eq in H. exact H.
Qed.

Lemma get_feed_eq (user : option string) (limit : Z) (d : Database.t) :
  get_feed user limit (Some d) =
  Ok (map stringify_id
        (Mongo.limit limit
           (sort_desc by_date (find (feed_query user) (Database.workout d))))).
Proof. reflexivity. Qed.

Lemma feed_of_sort_desc (user : option string) (d : Database.t) :
  feed_of user d (sort_desc by_date (find (feed_query user) (Database.workout d))).
Proof. split; [apply sort_desc_perm|apply sort_desc_sorted]. Qed.

(** Three workouts with increasing dates have one descending order. *)
Lemma newest_first_three (l : list (Document Workout.t))
    (w1 w2 w3 : Document Workout.t) (t1 t2 t3 : datetime) :
  Permutation l [w1; w2; w3] ->
  by_date w1 = Some t1 -> by_date w2 = Some t2 -> by_date w3 = Some t3 ->
  t1 < t2 -> t2 < t3 ->
  newest_first l -> l = [w3; w2; w1].
Proof.
  intros Hp H1 H2 H3 H12 H23 Hl. symmetry.
  apply (StronglySorted_perm_eq (before by_date)).
  - intros a b Ha Hb Hab Hba. unfold before in *.
    simpl in Ha, Hb.
    destruct Ha as [<-|[<-|[<-|[]]]]; destruct Hb as [<-|[<-|[<-|[]]]];
      try reflexivity;
      rewrite ?H1, ?H2, ?H3 in Hab, Hba; simpl in Hab, Hba;
      apply Z.leb_le in Hab, Hba; lia.
  - unfold before.
    repeat constructor; rewrite ?H1, ?H2, ?H3; simpl; apply Z.leb_le; lia.
  - exact Hl.
  - rewrite Hp. transitivity [w3; w1; w2].
    + apply perm_skip, perm_swap.
    + apply (Permutation_cons_append [w1; w2] w3).
Qed.

(** C4 (as amended).  A feed request on a connected database answers with
    stored workouts, their identifiers rendered as strings, sorted by date
    with the most recent first.  The workouts are those whose [user_id]
    equals the user filter when a non-empty one is given, and all
    workouts when the filter is absent or the empty string.  With
    [limit > 0] the answer is the [limit] most recent of them, so at most
    [limit] records (20 when no limit is given); with [limit = 0] it is
    all of them.  Three workouts with dates [t1 < t2 < t3] come back in
    the order [t3, t2, t1]. *)
Theorem get_feed_newest_first (user : option string) (limit : Z) (d : Database.t) :
  (exists sorted r,
     feed_of user d sorted /\
     get_feed user limit (Some d) = Ok r /\
     (exists k, r = map stringify_id (firstn k sorted)) /\
     (0 < limit -> r = map stringify_id (firstn (Z.to_nat limit) sorted) /\
                   Z.of_nat (List.length r) <= limit) /\
     (limit = 0 -> r = map stringify_id sorted) /\
     newest_first r /\
     Forall id_is_str r /\
     (forall x, In x r ->
        exists w, In w (Database.workout d) /\ x = stringify_id w /\
                  (forall u, user = Some u -> u <> "" ->
                             Workout.user_id (body w) = u)))
  /\
  (forall now, app now (GET_api_workouts user None) (Some d) =
               app now (GET_api_workouts user (Some 20)) (Some d))
  /\
  (forall now w1 w2 w3 t1 t2 t3,
     Permutation (Database.workout d) [w1; w2; w3] ->
     by_date w1 = Some t1 -> by_date w2 = Some t2 -> by_date w3 = Some t3 ->
     t1 < t2 -> t2 < t3 ->
     app now (GET_api_workouts None None) (Some d) =
       (Ok (Workouts [stringify_id w3; stringify_id w2; stringify_id w1]),
        Some d)).
Proof.
  split; [|split].
  - pose (sorted := sort_desc by_date (find (feed_query user) (Database.workout d))).
    assert (Hfeed : feed_of user d sorted) by apply feed_of_sort_desc.
    destruct (limit_prefix limit sorted) as [k Hk].
    exists sorted, (map stringify_id (Mongo.limit limit sorted)).
    split; [exact Hfeed|]. split; [apply get_feed_eq|].
    split; [exists k; rewrite Hk; reflexivity|].
    split; [|split; [|split; [|split]]].
    + intros Hpos. unfold Mongo.limit.
      replace (limit =? 0) with false by (symmetry; apply Z.eqb_neq; lia).
      replace (Z.abs_nat limit) with (Z.to_nat limit) by lia.
      split; [reflexivity|]. rewrite length_map.
      pose proof (firstn_le_length (Z.to_nat limit) sorted). lia.
    + intros ->. reflexivity.
    + apply newest_first_stringify. rewrite Hk.
      apply StronglySorted_firstn. apply Hfeed.
    + apply stringify_ids.
    + intros x Hx. apply in_map_iff in Hx. destruct Hx as [w [<- Hw]].
      rewrite Hk in Hw. apply In_firstn in Hw.
      apply (Permutation_in _ (proj1 Hfeed)) in Hw.
      unfold find in Hw. apply filter_In in Hw. destruct Hw as [Hin Hq].
      exists w. split; [exact Hin|]. split; [reflexivity|].
      intros u Hu Hne. eapply feed_query_sound; eauto.
  - reflexivity.
  - intros now w1 w2 w3 t1 t2 t3 Hp H1 H2 H3 H12 H23.
    cbn [app default_limit]. rewrite get_feed_eq. cbn [answer].
    change (feed_query None) with (fun _ : Document Workout.t => true).
    rewrite find_any.
    rewrite (newest_first_three (sort_desc by_date (Database.workout d))
               w1 w2 w3 t1 t2 t3); try assumption.
    + reflexivity.
    + rewrite sort_desc_perm. exact Hp.
    + apply sort_desc_sorted.
Qed.

Lemma get_feed_newest_first_witness :
  app 0 (GET_api_workouts None None) (Some three_workouts_db) =
    (Ok (Workouts [stringify_id (stored_at 1%N "bob" 30);
                   stringify_id (stored_at 2%N "alice" 20);
                   stringify_id (stored_at 0%N "alice" 10)]),
     Some three_workouts_db).
Proof.
  destruct (get_feed_newest_first None 20 three_workouts_db) as [_ [_ H]].
  apply (H 0 (stored_at 0%N "alice" 10) (stored_at 2%N "alice" 20)
           (stored_at 1%N "bob" 30) 10 20 30).
  - simpl. apply perm_skip, perm_swap.
  - reflexivity.
  - reflexivity.
  - reflexivity.
  - lia.
  - lia.
Defined.

(** C4, as stated, fails twice over.  With [limit = 0] the feed holds a
    record, more than the limit; and with the empty string as the user
    filter it holds a workout of "alice". *)
Lemma get_feed_not_limited_nor_filtered :
  get_feed None 0 (Some one_workout_db) = Ok [stringify_id stored_bench] /\
  get_feed (Some "") 20 (Some one_workout_db) = Ok [stringify_id stored_bench] /\
  Workout.user_id (body stored_bench) = "alice".
Proof. repeat split. Qed.

(** C9 (as amended).  On a connected database, listing users or
    challenges with [limit = 0] returns the empty list, however many
    records are stored; the feed with [limit = 0] is not cut at all: it
    returns every selected workout, most recent first. *)
Theorem limit_0 (user : option string) (d : Database.t) :
  list_users 0 (Some d) = Ok [] /\
  list_challenges 0 (Some d) = Ok [] /\
  exists sorted,
    feed_of user d sorted /\
    get_feed user 0 (Some d) = Ok (map stringify_id sorted).
Proof.
  split; [reflexivity|]. split; [reflexivity|].
  eexists. split; [apply feed_of_sort_desc|]. apply get_feed_eq.
Qed.

(** C9, as stated, fails for the feed: one workout is stored and a feed
    request with [limit = 0] returns it. *)
Lemma get_feed_limit_0_not_empty :
  app 0 (GET_api_workouts None (Some 0)) (Some one_workout_db) =
    (Ok (Workouts [stringify_id stored_bench]), Some one_workout_db).
Proof. reflexivity. Qed.

(* ================================================================== *)
(** * Further properties of the handlers *)
(* ================================================================== *)

(** ** Metrics *)

Lemma sum_volume_from_raises (l : list ExerciseSet.t) (acc : float) (e : exn) :
  sum_volume_from acc l = Raise e -> e = OverflowError.
Proof.
  revert acc; induction l as [|s l IH]; intros acc H; [discriminate|].
  unfold sum_volume_from in H. cbn [for_each] in H.
  destruct (set_volume s) as [x|e0] eqn:Ex.
  - cbn [bind] in H. destruct (float_iadd acc x) as [acc'|e1] eqn:Ea.
    + cbn [bind] in H. eapply IH, H.
    + cbn [bind] in H. injection H as <-.
      unfold set_volume, or_0 in Ex.
      destruct (float_bool (ExerciseSet.weight s)); simpl in Ex.
      * destruct (float_of_int (ExerciseSet.reps s)); simpl in Ex;
          [injection Ex as <-; discriminate|discriminate].
      * injection Ex as <-. rewrite Z.mul_0_r in Ea. discriminate.
  - cbn [bind] in H. injection H as <-.
    unfold set_volume, or_0, int_mul in Ex.
    destruct (float_bool (ExerciseSet.weight s)); [|discriminate].
    unfold float_of_int in Ex.
    destruct (nearest_float (ExerciseSet.reps s)); simpl in Ex;
      try discriminate. injection Ex as <-. reflexivity.
Qed.

(** X1.  [compute_workout_metrics] has two outcomes only.  It returns a
    workout exactly when the products [reps * weight] can be formed, and
    otherwise it raises [OverflowError], never another exception. *)
Theorem compute_workout_metrics_outcomes (now : datetime) (w : Workout.t) :
  (products_representable w /\
   exists w', compute_workout_metrics now w = Ok w') \/
  (~ products_representable w /\
   compute_workout_metrics now w = Raise OverflowError).
Proof.
  destruct (compute_workout_metrics now w) as [w'|e] eqn:E.
  - left. split; [|eauto]. apply (compute_workout_metrics_returns now). eauto.
  - right. split.
    + intros H. apply (compute_workout_metrics_returns now) in H.
      destruct H as [w' H]. rewrite H in E. discriminate.
    + rewrite compute_workout_metrics_eq in E.
      destruct (sum_volume (all_sets w)) as [v|e0] eqn:Ev; [discriminate|].
      simpl in E. injection E as <-.
      f_equal. eapply sum_volume_from_raises, Ev.
Qed.

(** ** Likes *)

Lemma find_one_and_update_None {A} (filter : Document A -> bool)
    (update : A -> result A) (c c' : Collection A) :
  find_one_and_update filter update c = Ok (None, c') ->
  c' = c /\ forall x, In x c -> filter x = false.
Proof.
  revert c'; induction c as [|x c IH]; intros c' H.
  - injection H as <-. split; [reflexivity|intros x []].
  - simpl in H. destruct (filter x) eqn:Ex.
    + destruct (update (body x)); discriminate.
    + destruct (find_one_and_update filter update c) as [[r c'']|e];
        [|discriminate].
      simpl in H. injection H as -> <-.
      destruct (IH c'' eq_refl) as [-> Hc].
      split; [reflexivity|]. intros y [<-|Hy]; [exact Ex|apply Hc, Hy].
Qed.

(** X3.  The fallback of [like_workout] never changes the answer nor the
    database: on every connected database the handler does what its
    first query alone does.  The second query selects the same documents
    as the first, so it finds nothing whenever it is tried. *)
Theorem like_workout_fallback_idle (workout_id : string) (d : Database.t) :
  like_workout workout_id (Some d) = like_workout_first_query workout_id d.
Proof.
  unfold like_workout, like_workout_first_query.
  destruct (toObjectId workout_id) as [oid|e] eqn:Eo; cbn [bind]; [|reflexivity].
  destruct (find_one_and_update (like_query oid) inc_likes (Database.workout d))
    as [[[u|] c]|e] eqn:E1; [reflexivity| |reflexivity].
  apply find_one_and_update_None in E1. destruct E1 as [-> Hno].
  rewrite set_workout_same.
  unfold toObjectId in Eo. unfold ObjectId_of_str.
  destruct (parse_ObjectId workout_id) as [oid'|]; [|discriminate].
  injection Eo as ->. cbn [bind].
  rewrite (find_one_and_update_no_match (by_id oid) inc_likes).
  - rewrite set_workout_same. reflexivity.
  - intros x Hx. rewrite <- like_query_by_id. apply Hno, Hx.
Qed.

Lemma find_one_and_update_Some {A} (filter : Document A -> bool)
    (update : A -> result A) (c c' : Collection A) (u : Document A) :
  find_one_and_update filter update c = Ok (Some u, c') ->
  exists pre x post b,
    c = pre ++ x :: post /\
    (forall y, In y pre -> filter y = false) /\
    filter x = true /\ update (body x) = Ok b /\
    u = mkDocument (_id x) b /\ c' = pre ++ u :: post.
Proof.
  revert c'; induction c as [|x c IH]; intros c' H; [discriminate|].
  simpl in H. destruct (filter x) eqn:Ex.
  - destruct (update (body x)) as [b|e] eqn:Eb; [|discriminate].
    simpl in H. injection H as <- <-.
    exists [], x, c, b. repeat split; try assumption. intros y [].
  - destruct (find_one_and_update filter update c) as [[r c'']|e];
      [|discriminate].
    simpl in H. injection H as -> <-.
    destruct (IH c'' eq_refl) as [pre [x0 [post [b [-> [Hpre [Hx [Hb [-> ->]]]]]]]]].
    exists (x :: pre), x0, post, b. repeat split; try assumption.
    intros y [<-|Hy]; [exact Ex|apply Hpre, Hy].
Qed.


Lemma inc_likes_Ok (w b : Workout.t) :
  inc_likes w = Ok b ->
  exists n, Workout.likes w = Some n /\ b = with_likes w (n + 1).
Proof.
  unfold inc_likes. destruct (Workout.likes w) as [n|]; [|discriminate].
  intros H. injection H as <-. exists n. split; reflexivity.
Qed.

(** X4.  What a like request can do to a connected database.  Either it
    raises and the database is exactly as before, or it answers with one
    stored workout whose like counter it has raised by exactly 1, every
    other field, every other workout, the users and the challenges being
    as before.  So a single request never counts twice, and a counter
    moves only when the request succeeds. *)
Theorem like_workout_effect (workout_id : string) (d : Database.t) :
  (exists e, like_workout workout_id (Some d) = (Raise e, Some d)) \/
  (exists pre w post n,
     Database.workout d = pre ++ w :: post /\
     Workout.likes (body w) = Some n /\
     like_workout workout_id (Some d) =
       (Ok (mkDocument (IdStr (str_id (_id w))) (with_likes (body w) (n + 1))),
        Some (Database.mk (Database.user d)
                (pre ++ mkDocument (_id w) (with_likes (body w) (n + 1)) :: post)
                (Database.challenge d) (Database.next_id d)))).
Proof.
  unfold like_workout, toObjectId, ObjectId_of_str.
  destruct (parse_ObjectId workout_id) as [oid|]; cbn [bind]; [|left; eauto].
  destruct (find_one_and_update (like_query oid) inc_likes (Database.workout d))
    as [[[u|] c]|e] eqn:E1.
  - right. apply find_one_and_update_Some in E1.
    destruct E1 as [pre [x [post [b [Hc [_ [_ [Hb [-> ->]]]]]]]]].
    apply inc_likes_Ok in Hb. destruct Hb as [n [Hn ->]].
    exists pre, x, post, n. repeat split; assumption.
  - left. apply find_one_and_update_None in E1. destruct E1 as [-> Hno].
    rewrite set_workout_same.
    rewrite (find_one_and_update_no_match (by_id oid) inc_likes).
    + rewrite set_workout_same. eauto.
    + intros x Hx. rewrite <- like_query_by_id. apply Hno, Hx.
  - left. eauto.
Qed.

(** A like of the first workout with the requested identifier. *)
Lemma like_workout_match (workout_id : string) (oid : ObjectId)
    (d : Database.t) (pre post : Collection Workout.t) (b : Workout.t) (n : Z) :
  parse_ObjectId workout_id = Some oid ->
  Database.workout d = pre ++ mkDocument (IdObjectId oid) b :: post ->
  (forall x, In x pre -> _id x <> IdObjectId oid) ->
  Workout.likes b = Some n ->
  like_workout workout_id (Some d) =
    (Ok (mkDocument (IdStr (str_ObjectId oid)) (with_likes b (n + 1))),
     Some (Database.mk (Database.user d)
             (pre ++ mkDocument (IdObjectId oid) (with_likes b (n + 1)) :: post)
             (Database.challenge d) (Database.next_id d))).
Proof.
  intros Hparse Hw Hpre Hlikes.
  unfold like_workout, toObjectId. rewrite Hparse. cbn [bind]. rewrite Hw.
  rewrite (find_one_and_update_first (like_query oid) inc_likes pre post
             (mkDocument (IdObjectId oid) b) (with_likes b (n + 1))).
  - reflexivity.
  - intros x Hx. rewrite like_query_by_id. apply id_eqb_neq, Hpre, Hx.
  - rewrite like_query_by_id. apply id_eqb_eq. reflexivity.
  - apply inc_likes_with_likes, Hlikes.
Qed.

Lemma with_likes_same (b : Workout.t) (n : Z) :
  Workout.likes b = Some n -> with_likes b n = b.
Proof. destruct b. simpl. intros ->. reflexivity. Qed.

Lemma with_likes_twice (b : Workout.t) (n m : Z) :
  with_likes (with_likes b n) m = with_likes b m.
Proof. reflexivity. Qed.

(** X5.  [k] like requests in a row for a stored workout raise its counter
    by exactly [k]: no request is lost and none counts twice.  Nothing
    else in the database changes. *)
Theorem like_times_adds (k : nat) (workout_id : string) (oid : ObjectId)
    (d : Database.t) (pre post : Collection Workout.t) (b : Workout.t) (n : Z) :
  parse_ObjectId workout_id = Some oid ->
  Database.workout d = pre ++ mkDocument (IdObjectId oid) b :: post ->
  (forall x, In x pre -> _id x <> IdObjectId oid) ->
  Workout.likes b = Some n ->
  like_times k workout_id (Some d) =
    Some (Database.mk (Database.user d)
            (pre ++ mkDocument (IdObjectId oid) (with_likes b (n + Z.of_nat k))
                 :: post)
            (Database.challenge d) (Database.next_id d)).
Proof.
  intros Hparse. revert d b n.
  induction k as [|k IH]; intros d b n Hw Hpre Hlikes.
  - simpl. rewrite Z.add_0_r, (with_likes_same b n Hlikes), <- Hw.
    destruct d; reflexivity.
  - cbn [like_times].
    rewrite (like_workout_match workout_id oid d pre post b n) by assumption.
    cbn [snd]. rewrite (IH _ (with_likes b (n + 1)) (n + 1)).
    + cbn [Database.user Database.challenge Database.next_id].
      rewrite with_likes_twice.
      replace (n + 1 + Z.of_nat k) with (n + Z.of_nat (S k)) by lia.
      reflexivity.
    + reflexivity.
    + exact Hpre.
    + reflexivity.
Qed.

Lemma like_times_adds_witness :
  like_times 3 "000000000000000000000000" (Some one_workout_db) =
    Some (Database.mk []
            [mkDocument (IdObjectId 0%N) (with_likes (body stored_bench) 3)]
            [] 1%N).
Proof.
  apply (like_times_adds 3 "000000000000000000000000" 0%N one_workout_db
           [] [] (body stored_bench) 0).
  - vm_compute. reflexivity.
  - reflexivity.
  - intros x [].
  - reflexivity.
Defined.

(** ** Identifiers as strings *)

Lemma hex_digit_hex_char (d : N) : (d < 16)%N -> hex_digit (hex_char d) = Some d.
Proof.
  intros H.
  assert (E : (d = 0 \/ d = 1 \/ d = 2 \/ d = 3 \/ d = 4 \/ d = 5 \/ d = 6 \/
               d = 7 \/ d = 8 \/ d = 9 \/ d = 10 \/ d = 11 \/ d = 12 \/
               d = 13 \/ d = 14 \/ d = 15)%N) by lia.
  repeat (destruct E as [->|E]; [reflexivity|]). subst d. reflexivity.
Qed.

Lemma length_hex_digits (n : nat) (v : N) (acc : string) :
  String.length (hex_digits n v acc) = (n + String.length acc)%nat.
Proof.
  revert v acc; induction n as [|n IH]; intros v acc; simpl; [reflexivity|].
  rewrite IH. simpl. lia.
Qed.

(** Reading back the digits that were written. *)
Lemma parse_hex_digits (n : nat) (v a : N) (acc : string) :
  parse_hex (hex_digits n v acc) a =
  parse_hex acc (a * 16 ^ N.of_nat n + v mod 16 ^ N.of_nat n)%N.
Proof.
  revert v a acc; induction n as [|n IH]; intros v a acc.
  - simpl hex_digits. f_equal. simpl. rewrite N.mod_1_r. lia.
  - cbn [hex_digits]. rewrite IH. cbn [parse_hex].
    rewrite hex_digit_hex_char by (apply N.mod_lt; lia).
    f_equal. rewrite Nat2N.inj_succ, N.pow_succ_r'.
    rewrite (N.Div0.mod_mul_r v 16 (16 ^ N.of_nat n)). lia.
Qed.

Lemma parse_str_fresh (o : ObjectId) :
  (o < 2 ^ 96)%N -> parse_ObjectId (str_ObjectId o) = Some o.
Proof.
  intros H. unfold parse_ObjectId, str_ObjectId. rewrite length_hex_digits.
  change (24 + String.length "" =? 24)%nat with true. cbv iota.
  rewrite (parse_hex_digits 24 o 0 ""). cbn [parse_hex].
  change (16 ^ N.of_nat 24)%N with (2 ^ 96)%N.
  rewrite N.mod_small by exact H. rewrite N.mul_0_l, N.add_0_l. reflexivity.
Qed.

(** X7.  Writing an identifier as a string and reading the string back
    gives the identifier: the 24 digits [str] produces are accepted by
    [ObjectId(...)] and by [$toObjectId], and denote the same twelve
    bytes. *)
Theorem parse_str_ObjectId (o : ObjectId) :
  (o < 2 ^ 96)%N ->
  parse_ObjectId (str_ObjectId o) = Some o /\
  ObjectId_of_str (str_ObjectId o) = Ok o /\
  toObjectId (str_ObjectId o) = Ok o.
Proof.
  intros H.
  pose proof (parse_str_fresh o H) as E.
  unfold ObjectId_of_str, toObjectId. rewrite E. repeat split.
Qed.

Lemma parse_str_ObjectId_witness :
  (255 < 2 ^ 96)%N /\
  str_ObjectId 255%N = "0000000000000000000000ff" /\
  parse_ObjectId (str_ObjectId 255%N) = Some 255%N.
Proof.
  assert (H : (255 < 2 ^ 96)%N) by (vm_compute; reflexivity).
  split; [exact H|]. split; [reflexivity|].
  exact (proj1 (parse_str_ObjectId 255%N H)).
Defined.

(** ** Creating a workout, then using it *)




(** ** The feed after a creation *)








(** ** Users *)








(** ** Challenges *)



(** ** Status codes *)







(** ** Validation of the derived fields *)



(** ** The health route *)

(** X16.  What [test_database] reports.  At most ten collection names,
    the first ten the database lists; the two entries [database_url] and
    [database_name] say only whether the environment variables are set,
    so the report is the same whatever the name of the database; and when
    listing the collections fails the report still comes back, as
    connected and with no collection. *)
Theorem test_database_report (db : option Diagnostics.connection)
    (env : Diagnostics.environ) :
  (List.length (Diagnostics.collections (Diagnostics.test_database db env)) <= 10)%nat
  /\
  (forall c names,
     db = Some c ->
     Diagnostics.list_collection_names c = Diagnostics.Returned names ->
     Diagnostics.collections (Diagnostics.test_database db env) = firstn 10 names)
  /\
  (forall c e,
     db = Some c ->
     Diagnostics.list_collection_names c = Diagnostics.Raised e ->
     Diagnostics.collections (Diagnostics.test_database db env) = [] /\
     Diagnostics.connection_status (Diagnostics.test_database db env) = "Connected")
  /\
  (Diagnostics.database_name (Diagnostics.test_database db env) = Some "✅ Set" \/
   Diagnostics.database_name (Diagnostics.test_database db env) = Some "❌ Not Set")
  /\
  (Diagnostics.database_url (Diagnostics.test_database db env) = Some "✅ Set" \/
   Diagnostics.database_url (Diagnostics.test_database db env) = Some "❌ Not Set")
  /\
  (forall c other,
     db = Some c ->
     Diagnostics.test_database
       (Some (Diagnostics.mkConnection other (Diagnostics.list_collection_names c)))
       env =
     Diagnostics.test_database db env).
Proof.
  split; [|split; [|split; [|split; [|split]]]].
  - destruct db as [[n [names|e]]|]; cbn -[firstn]; try lia.
    rewrite length_firstn. lia.
  - intros c names -> H. destruct c as [n l]. simpl in H. subst l. reflexivity.
  - intros c e -> H. destruct c as [n l]. simpl in H. subst l. split; reflexivity.
  - unfold Diagnostics.test_database. simpl.
    destruct (Diagnostics.getenv_bool _); auto.
  - unfold Diagnostics.test_database. simpl.
    destruct (Diagnostics.getenv_bool _); auto.
  - intros c other ->. destruct c as [n [names|e]]; reflexivity.
Qed.

Lemma test_database_report_witness :
  Diagnostics.test_database (Some (a_connection "fittrack"))
    (Diagnostics.mkEnviron (Some "mongodb://localhost") None) =
  Diagnostics.mkStatus "✅ Running" "✅ Connected & Working"
    (Some "✅ Set") (Some "❌ Not Set") "Connected"
    ["user"; "workout"; "challenge"] /\
  Diagnostics.test_database (Some (a_connection "other"))
    (Diagnostics.mkEnviron (Some "mongodb://localhost") None) =
  Diagnostics.test_database (Some (a_connection "fittrack"))
    (Diagnostics.mkEnviron (Some "mongodb://localhost") None).
Proof.
  split; [reflexivity|].
  destruct (test_database_report (Some (a_connection "fittrack"))
              (Diagnostics.mkEnviron (Some "mongodb://localhost") None))
    as [_ [_ [_ [_ [_ H]]]]].
  apply (H (a_connection "fittrack") "other"). reflexivity.
Defined.

(** ** The stored workout satisfies its schema *)

Lemma nonneg_float_le (x : float) : nonneg x <-> float_le float_0 x = true.
Proof.
  destruct x as [s|[]| |[] m e]; simpl; split; intros H;
    try reflexivity; try discriminate; try contradiction; exact I.
Qed.

(** Rounding a magnitude that is not negative gives a float that is
    not negative. *)
Lemma binary_round_aux_nonneg (m e : Z) (l : location) :
  0 <= m -> nonneg (binary_round_aux prec emax false m e l).
Proof.
  intros Hm. unfold binary_round_aux.
  pose proof (shr_fexp_bounds m e l Hm) as H1.
  destruct (shr_fexp prec emax m e l) as [r1 e1]. destruct H1 as [H1 _].
  destruct (round_nearest_even_bounds (shr_m r1) (loc_of_shr_record r1) H1)
    as [H2 _].
  pose proof (shr_fexp_bounds _ e1 loc_Exact H2) as H3.
  destruct (shr_fexp prec emax _ e1 loc_Exact) as [r2 e2].
  destruct H3 as [H3 _].
  destruct (shr_m r2) as [|p|p]; [exact I| |lia].
  destruct (e2 <=? emax - prec); reflexivity.
Qed.

Lemma binary_round_nonneg (m : positive) (e : Z) :
  nonneg (binary_round prec emax false m e).
Proof.
  unfold binary_round.
  destruct (shl_align m e (fexp prec emax (Zpos (digits2_pos m) + e))) as [mz ez].
  apply binary_round_aux_nonneg. lia.
Qed.

(** The float of a positive integer is a positive finite number. *)
Lemma float_of_int_positive (z : Z) (f : float) :
  1 <= z -> float_of_int z = Ok f -> exists m e, f = S754_finite false m e.
Proof.
  intros Hz. destruct z as [|p|p]; try lia. unfold float_of_int, nearest_float.
  cbn [binary_normalize]. unfold binary_round.
  destruct (shl_align p 0 (fexp prec emax (Zpos (digits2_pos p) + 0)))
    as [mz ez] eqn:Ea.
  assert (Hd : -1021 <= Zdigits2 (Zpos mz) + ez).
  { unfold shl_align in Ea.
    destruct (fexp prec emax (Zpos (digits2_pos p) + 0) - 0) as [|d|d] eqn:Ed;
      injection Ea as <- <-; unfold fexp, SpecFloat.emin, prec, emax in *;
      simpl Zdigits2; lia. }
  unfold binary_round_aux.
  pose proof (shr_fexp_lower (Zpos mz) ez loc_Exact) as H1.
  destruct (shr_fexp prec emax (Zpos mz) ez loc_Exact) as [r1 e1].
  destruct H1 as [H1 [_ [_ HD1]]]; [lia|exact Hd|].
  pose proof (round_nearest_even_ge (shr_m r1) (loc_of_shr_record r1)) as Hge.
  set (m2 := round_nearest_even (shr_m r1) (loc_of_shr_record r1)) in *.
  assert (Hd2 : Zdigits2 (shr_m r1) <= Zdigits2 m2) by (apply Zdigits2_mono; lia).
  pose proof (shr_fexp_lower m2 e1 loc_Exact) as H3.
  destruct (shr_fexp prec emax m2 e1 loc_Exact) as [r2 e2].
  destruct H3 as [H3 _]; [lia|lia|].
  destruct (shr_m r2) as [|q|q]; try lia.
  destruct (e2 <=? emax - prec); [|discriminate].
  intros H. injection H as <-. eauto.
Qed.

Lemma float_mul_nonneg (m : positive) (e : Z) (y : float) :
  nonneg y -> float_bool y = true ->
  nonneg (float_mul (S754_finite false m e) y).
Proof.
  destruct y as [s|s| |s my ey]; simpl; intros Hy Hb;
    try discriminate; try contradiction.
  - subst s. reflexivity.
  - subst s. apply binary_round_aux_nonneg. lia.
Qed.

Lemma float_add_nonneg (x y : float) :
  nonneg x -> nonneg y -> nonneg (float_add x y).
Proof.
  destruct x as [sx|sx| |sx mx ex], y as [sy|sy| |sy my ey]; simpl;
    intros Hx Hy; try contradiction; subst; try exact I; try reflexivity.
  - destruct sx, sy; exact I.
  - unfold cond_Zopp.
    destruct (shl_align mx ex (Z.min ex ey)) as [ax ex'].
    destruct (shl_align my ey (Z.min ex ey)) as [ay ey']. simpl.
    apply binary_round_nonneg.
Qed.

Lemma float_div_nonneg (mx my : positive) (ex ey : Z) :
  nonneg (float_div (S754_finite false mx ex) (S754_finite false my ey)).
Proof.
  unfold float_div. cbn [SFdiv xorb]. unfold SFdiv_core_binary.
  match goal with
  | |- context [IntDef.Z.div_eucl ?a ?b] =>
      assert (Ha : 0 <= a);
      [ match goal with
        | |- 0 <= match ?s with _ => _ end =>
            destruct s; [lia|apply Z.shiftl_nonneg; lia|lia]
        end
      | pose proof (Z.div_pos a b Ha ltac:(lia)) as Hq;
        unfold Z.div in Hq;
        destruct (IntDef.Z.div_eucl a b) as [q r] ]
  end.
  apply binary_round_aux_nonneg. exact Hq.
Qed.

Lemma round_nonneg (x : float) : nonneg x -> nonneg (round x 2).
Proof.
  destruct x as [s|s| |s m e]; simpl; intros H; try exact H.
  subst s. destruct (scaled_int 2 m e) as [|n|n]; try exact I.
  change (nearest_float (10 ^ 2))
    with (S754_finite false 7036874417766400 (-46)).
  apply float_div_nonneg.
Qed.

Lemma validate_sets (w : Workout.t) :
  Workout.validate w = true ->
  forall s, In s (all_sets w) ->
    1 <= ExerciseSet.reps s /\ nonneg (ExerciseSet.weight s).
Proof.
  unfold Workout.validate. intros H s Hin.
  repeat (apply andb_true_iff in H; destruct H as [H ?]).
  unfold all_sets in Hin. apply in_flat_map in Hin. destruct Hin as [ex [Hex Hin]].
  match goal with
  | Hall : forallb WorkoutExercise.validate _ = true |- _ =>
      rewrite forallb_forall in Hall; pose proof (Hall ex Hex) as Hs
  end.
  unfold WorkoutExercise.validate in Hs. rewrite forallb_forall in Hs.
  specialize (Hs s Hin). unfold ExerciseSet.validate in Hs.
  repeat (apply andb_true_iff in Hs; destruct Hs as [Hs ?]).
  split; [apply Z.leb_le; exact Hs|apply nonneg_float_le; assumption].
Qed.

Lemma sum_volume_from_nonneg (l : list ExerciseSet.t) (acc v : float) :
  (forall s, In s l -> 1 <= ExerciseSet.reps s /\ nonneg (ExerciseSet.weight s)) ->
  nonneg acc ->
  sum_volume_from acc l = Ok v ->
  nonneg v.
Proof.
  revert acc; induction l as [|s l IH]; intros acc Hl Hacc H.
  - injection H as <-. exact Hacc.
  - unfold sum_volume_from in H. cbn [for_each] in H.
    apply bind_Ok in H. destruct H as [acc' [Hstep H]].
    destruct (Hl s (or_introl eq_refl)) as [Hreps Hw].
    apply (IH acc'); [intros s' Hs'; apply Hl; right; exact Hs'| |exact H].
    apply bind_Ok in Hstep. destruct Hstep as [x [Hx Hadd]].
    unfold set_volume, or_0 in Hx.
    destruct (float_bool (ExerciseSet.weight s)) eqn:Hb; simpl in Hx.
    + apply bind_Ok in Hx. destruct Hx as [f [Hf Hx]]. injection Hx as <-.
      simpl in Hadd. injection Hadd as <-.
      destruct (float_of_int_positive _ _ Hreps Hf) as [m [e ->]].
      apply float_add_nonneg; [exact Hacc|].
      apply float_mul_nonneg; assumption.
    + injection Hx as <-. rewrite Z.mul_0_r in Hadd. simpl in Hadd.
      injection Hadd as <-. apply float_add_nonneg; [exact Hacc|exact I].
Qed.

Lemma sum_reps_nonneg (l : list ExerciseSet.t) :
  (forall s, In s l -> 1 <= ExerciseSet.reps s) -> 0 <= sum_reps l.
Proof.
  induction l as [|s l IH]; intros H; simpl; [lia|].
  pose proof (H s (or_introl eq_refl)).
  assert (0 <= sum_reps l) by (apply IH; intros s' Hs'; apply H; right; exact Hs').
  unfold sum_reps in *. lia.
Qed.

(** X2.  What [compute_workout_metrics] returns for a payload that passed
    validation passes validation again: the computed [total_volume] is a
    number and is not negative, [total_sets] and [total_reps] are not
    negative, and the like counter is set and not negative.  So every
    workout that is stored satisfies the constraints of its schema. *)
Theorem computed_workout_is_valid (now : datetime) (w w' : Workout.t) :
  Workout.validate w = true ->
  compute_workout_metrics now w = Ok w' ->
  Workout.validate w' = true /\
  (exists v, Workout.total_volume w' = Some v /\ nonneg v) /\
  (exists n, Workout.likes w' = Some n /\ 0 <= n).
Proof.
  intros Hv Hc. pose proof (validate_sets w Hv) as Hsets.
  rewrite compute_workout_metrics_eq in Hc. apply bind_Ok in Hc.
  destruct Hc as [v [Hsum Hw]]. injection Hw as <-.
  assert (Hnn : nonneg (round v 2)).
  { apply round_nonneg.
    exact (sum_volume_from_nonneg (all_sets w) float_0 v Hsets I Hsum). }
  assert (Hr : 0 <= sum_reps (all_sets w)).
  { apply sum_reps_nonneg. intros s Hs. apply Hsets, Hs. }
  assert (Hl : exists n, defaulted (Workout.likes w) 0 = Some n /\ 0 <= n).
  { unfold Workout.validate in Hv.
    repeat (apply andb_true_iff in Hv; destruct Hv as [Hv ?]).
    destruct (Workout.likes w) as [n|]; simpl in *.
    - exists n. split; [reflexivity|]. apply Z.leb_le. assumption.
    - exists 0. split; [reflexivity|lia]. }
  split; [|split; [exists (round v 2); split; [reflexivity|exact Hnn]|exact Hl]].
  destruct Hl as [n [Hn Hn0]].
  unfold Workout.validate in *. simpl. rewrite Hn. simpl.
  repeat (apply andb_true_iff in Hv; destruct Hv as [Hv ?]).
  repeat (apply andb_true_iff; split); try assumption.
  - apply nonneg_float_le, Hnn.
  - apply Z.leb_le. unfold count_sets. lia.
  - apply Z.leb_le. exact Hr.
  - apply Z.leb_le. exact Hn0.
Qed.

Lemma computed_workout_is_valid_witness :
  Workout.validate bench_workout = true /\
  Workout.validate
    (with_metrics bench_workout (nearest_float 1000) 2 10 (Some 1234) (Some 0))
    = true.
Proof.
  assert (H : Workout.validate bench_workout = true) by reflexivity.
  split; [exact H|].
  apply (computed_workout_is_valid 1234 bench_workout _ H).
  vm_compute. reflexivity.
Defined.
